(** * ezmsg-harvesters: feature-tree synchronisation and frame decoding

    A shallow embedding of
      - [src/ezmsg/harvesters/_spec.py]      (feature specs, [build_feature_spec]),
      - [src/ezmsg/harvesters/__init__.py]   ([HarvesterCam]: [send_ctrl], [on_ctrl], [on_image]),
      - [src/ezmsg/harvesters/_gui.py]       ([build_widgets_from_spec], [GenicamController]),
    and the properties of the specification that are decided by this code.

    Python objects that are mutated after they have been shared (spec
    objects whose [uuid] attribute is reassigned, the dictionaries bound
    to the default arguments [mapping={}], live camera nodes, widgets)
    live in explicit stores; exceptions are results of a state-and-error
    monad that keeps the store, as a raised Python exception does. *)

From Stdlib Require Import ZArith Lia Ascii String.
From stdpp Require Import gmap strings list fin_maps pretty.

#[local] Set Warnings "-clear-no-such-hyp".

Local Open Scope string_scope.
Local Open Scope list_scope.
Local Open Scope nat_scope.
Local Open Scope stdpp_scope.

(** ** GenICam enumerations read by the code

    [genicam.genapi] is an external package; the three enumerations are
    listed with the members of the GenApi standard.  The camera unit
    compares members for equality; the controller also compares their
    integer values ([member_code] below). *)

Inductive EInterfaceType :=
| intfIValue | intfIBase | intfIInteger | intfIBoolean | intfICommand
| intfIFloat | intfIString | intfIRegister | intfICategory
| intfIEnumeration | intfIEnumEntry | intfIPort.

Inductive EAccessMode := NI | NA | WO | RO | RW | UndefinedAccesMode | CycleDetectAccesMode.

Inductive EVisibility := Beginner | Expert | Guru | Invisible | UndefinedVisibility.

#[global] Instance EInterfaceType_eq_dec : EqDecision EInterfaceType.
Proof. solve_decision. Defined.
#[global] Instance EAccessMode_eq_dec : EqDecision EAccessMode.
Proof. solve_decision. Defined.
#[global] Instance EVisibility_eq_dec : EqDecision EVisibility.
Proof. solve_decision. Defined.

(** A dataclass field is not typed at run time: the field [visibility]
    of a spec holds whatever member the constructor call passed. *)
Inductive EnumMember :=
| OfVisibility (v : EVisibility)
| OfAccessMode (a : EAccessMode).

(** Values of feature nodes and of [FeatureValue.value] ([Any]); a
    float is [mantissa * 2 ^ exponent], written with an odd mantissa
    (or as [0 * 2 ^ 0]) so that equal floats are written alike.  The
    code stores and forwards these values and computes with none of
    them. *)
Inductive PyValue :=
| PyNone
| PyInt (z : Z)
| PyBool (b : bool)
| PyStr (s : string)
| PyFloat (mantissa : Z) (exponent : Z).

#[global] Instance PyValue_eq_dec : EqDecision PyValue.
Proof. solve_decision. Defined.

(** [uuid.UUID]: a 128-bit number. *)
Abbreviation UUID := N (only parsing).

(** ** Live camera nodes

    A feature handle is a reference to a node of the camera's node map
    together with the handles of its sub-features ([feature.features],
    fixed by the camera description).  What a handle reports when read
    is the node's current state in the camera. *)

Abbreviation NodeId := nat (only parsing).

#[local] Unset Elimination Schemes.
Inductive Feature := mkFeature (node : NodeId) (features : list Feature).
#[local] Set Elimination Schemes.

Definition feature_node (f : Feature) : NodeId := let 'mkFeature n _ := f in n.
Definition feature_features (f : Feature) : list Feature := let 'mkFeature _ fs := f in fs.

Record Node := mkNode {
  node_display_name : string;
  node_visibility : EVisibility;
  principal_interface_type : EInterfaceType;
  get_access_mode : EAccessMode;
  node_value : PyValue;
  node_min : PyValue;
  node_max : PyValue;
  node_inc : PyValue;
  node_entries : list string          (* [entry.symbolic for entry in feature.entries] *)
}.

Definition Camera := NodeId -> Node.

(** ** Feature specs ([_spec.py], the seven dataclasses)

    [I] is what the field [uuid] holds.  While [build_feature_spec]
    runs, spec objects are shared and their [uuid] attribute is
    reassigned, so the field holds the object's address in the store
    ([I := Addr]); a finished tree is read with the attribute of every
    object filled in ([I := UUID]).  The field [interface_type] always
    has its default and is the function [interface_type] below. *)

#[local] Unset Elimination Schemes.
Inductive FeatureSpec (I : Type) :=
| IntegerFeatureSpec (display_name : string) (visibility : EnumMember)
    (access_mode : EAccessMode) (value : PyValue) (min max inc : PyValue) (uuid : I)
| CommandFeatureSpec (display_name : string) (visibility : EnumMember) (uuid : I)
| BooleanFeatureSpec (display_name : string) (visibility : EnumMember)
    (access_mode : EAccessMode) (value : PyValue) (uuid : I)
| EnumFeatureSpec (display_name : string) (visibility : EnumMember)
    (access_mode : EAccessMode) (value : PyValue) (items : list string) (uuid : I)
| StringFeatureSpec (display_name : string) (visibility : EnumMember)
    (access_mode : EAccessMode) (value : PyValue) (uuid : I)
| FloatFeatureSpec (display_name : string) (visibility : EnumMember)
    (access_mode : EAccessMode) (value : PyValue) (uuid : I)
| CategoryFeatureSpec (display_name : string) (visibility : EnumMember)
    (children : list (FeatureSpec I)) (uuid : I).
#[local] Set Elimination Schemes.

Arguments IntegerFeatureSpec {I}.
Arguments CommandFeatureSpec {I}.
Arguments BooleanFeatureSpec {I}.
Arguments EnumFeatureSpec {I}.
Arguments StringFeatureSpec {I}.
Arguments FloatFeatureSpec {I}.
Arguments CategoryFeatureSpec {I}.

Section SpecFields.
Context {I : Type}.

Definition interface_type (s : FeatureSpec I) : EInterfaceType :=
  match s with
  | IntegerFeatureSpec _ _ _ _ _ _ _ _ => intfIInteger
  | CommandFeatureSpec _ _ _ => intfICommand
  | BooleanFeatureSpec _ _ _ _ _ => intfIBoolean
  | EnumFeatureSpec _ _ _ _ _ _ => intfIEnumeration
  | StringFeatureSpec _ _ _ _ _ => intfIString
  | FloatFeatureSpec _ _ _ _ _ => intfIFloat
  | CategoryFeatureSpec _ _ _ _ => intfICategory
  end.

Definition spec_display_name (s : FeatureSpec I) : string :=
  match s with
  | IntegerFeatureSpec d _ _ _ _ _ _ _ | CommandFeatureSpec d _ _
  | BooleanFeatureSpec d _ _ _ _ | EnumFeatureSpec d _ _ _ _ _
  | StringFeatureSpec d _ _ _ _ | FloatFeatureSpec d _ _ _ _
  | CategoryFeatureSpec d _ _ _ => d
  end.

Definition spec_visibility (s : FeatureSpec I) : EnumMember :=
  match s with
  | IntegerFeatureSpec _ v _ _ _ _ _ _ | CommandFeatureSpec _ v _
  | BooleanFeatureSpec _ v _ _ _ | EnumFeatureSpec _ v _ _ _ _
  | StringFeatureSpec _ v _ _ _ | FloatFeatureSpec _ v _ _ _
  | CategoryFeatureSpec _ v _ _ => v
  end.

(** Category and Command specs have no attribute [access_mode] and no
    attribute [value]. *)
Definition spec_access_mode (s : FeatureSpec I) : option EAccessMode :=
  match s with
  | IntegerFeatureSpec _ _ a _ _ _ _ _ | BooleanFeatureSpec _ _ a _ _
  | EnumFeatureSpec _ _ a _ _ _ | StringFeatureSpec _ _ a _ _
  | FloatFeatureSpec _ _ a _ _ => Some a
  | CommandFeatureSpec _ _ _ | CategoryFeatureSpec _ _ _ _ => None
  end.

Definition spec_value (s : FeatureSpec I) : option PyValue :=
  match s with
  | IntegerFeatureSpec _ _ _ x _ _ _ _ | BooleanFeatureSpec _ _ _ x _
  | EnumFeatureSpec _ _ _ x _ _ | StringFeatureSpec _ _ _ x _
  | FloatFeatureSpec _ _ _ x _ => Some x
  | CommandFeatureSpec _ _ _ | CategoryFeatureSpec _ _ _ _ => None
  end.

Definition spec_uuid (s : FeatureSpec I) : I :=
  match s with
  | IntegerFeatureSpec _ _ _ _ _ _ _ u | CommandFeatureSpec _ _ u
  | BooleanFeatureSpec _ _ _ _ u | EnumFeatureSpec _ _ _ _ _ u
  | StringFeatureSpec _ _ _ _ u | FloatFeatureSpec _ _ _ _ u
  | CategoryFeatureSpec _ _ _ u => u
  end.

Definition spec_children (s : FeatureSpec I) : list (FeatureSpec I) :=
  match s with
  | CategoryFeatureSpec _ _ c _ => c
  | _ => []
  end.

(** The identifiers of a tree, parents before their children. *)
Fixpoint tree_uuids (s : FeatureSpec I) : list I :=
  spec_uuid s ::
  match s with
  | CategoryFeatureSpec _ _ c _ => flat_map tree_uuids c
  | _ => []
  end.
End SpecFields.

(** Reading the [uuid] attribute of every object of a tree. *)
Fixpoint spec_map {I J : Type} (f : I -> J) (s : FeatureSpec I) : FeatureSpec J :=
  match s with
  | IntegerFeatureSpec d v a x mn mx ic u => IntegerFeatureSpec d v a x mn mx ic (f u)
  | CommandFeatureSpec d v u => CommandFeatureSpec d v (f u)
  | BooleanFeatureSpec d v a x u => BooleanFeatureSpec d v a x (f u)
  | EnumFeatureSpec d v a x it u => EnumFeatureSpec d v a x it (f u)
  | StringFeatureSpec d v a x u => StringFeatureSpec d v a x (f u)
  | FloatFeatureSpec d v a x u => FloatFeatureSpec d v a x (f u)
  | CategoryFeatureSpec d v c u => CategoryFeatureSpec d v (map (spec_map f) c) (f u)
  end.

Inductive Source := CAMERA | CONTROLLER.

#[global] Instance Source_eq_dec : EqDecision Source.
Proof. solve_decision. Defined.

Record FeatureValue := mkFeatureValue {
  source : Source;
  uuid : UUID;
  value : PyValue
}.

(** ** Interpreter state and the state-and-exception monad *)

Inductive Exception :=
| ValueError (msg : string)
| UnboundLocalError (name : string)     (* a subclass of [NameError] *)
| AttributeError (msg : string)
| KeyError (key : string)
| IndexError (msg : string)
| AccessException (msg : string)        (* [genicam.genapi], raised by the SDK *)
| Error (msg : string).                 (* [Exception(msg)] *)

Definition is_NameError (e : Exception) : bool :=
  match e with UnboundLocalError _ => true | _ => false end.

(** [OutOfDraws]: the run asked [uuid4()] for more values than the
    finite prefix [uuid4_draws] of its output holds. *)
Inductive Outcome (A : Type) :=
| Return (a : A)
| Raise (e : Exception)
| OutOfDraws.
Arguments Return {A}.
Arguments Raise {A}.
Arguments OutOfDraws {A}.

Abbreviation Addr := nat (only parsing).

Record Store := mkStore {
  uuid4_draws : list UUID;            (* what the next calls of [uuid4()] return *)
  spec_uuids : list UUID;             (* attribute [uuid] of the spec object at each address *)
  mapping : gmap UUID Feature         (* the dict bound to parameter [mapping] *)
}.

(** A computation over a store of type [S] that returns, raises, or
    runs out of draws, and leaves a store in each case. *)
Definition StateExc (S A : Type) : Type := S -> Outcome A * S.

Definition ret {S A} (a : A) : StateExc S A := fun st => (Return a, st).
Definition raise {S A} (e : Exception) : StateExc S A := fun st => (Raise e, st).
Definition bind {S A B} (m : StateExc S A) (k : A -> StateExc S B) : StateExc S B :=
  fun st =>
    match m st with
    | (Return a, st') => k a st'
    | (Raise e, st') => (Raise e, st')
    | (OutOfDraws, st') => (OutOfDraws, st')
    end.

Notation "x <- m ;; k" := (bind m (fun x => k))
  (at level 100, m at next level, right associativity).

Definition M : Type -> Type := StateExc Store.

(** [feature.value], read.  GenApi gives the value of a node that is
    readable, one whose access mode is Read-Only or Read-Write, and
    refuses the read of any other node with an [AccessException]. *)
Definition is_readable (n : Node) : bool :=
  match get_access_mode n with
  | RO | RW => true
  | _ => false
  end.

Definition get_value {S} (n : Node) : StateExc S PyValue :=
  if is_readable n then ret (node_value n)
  else raise (AccessException "Node is not readable.").

(** [uuid4()] *)
Definition uuid4 : M UUID :=
  fun st =>
    match uuid4_draws st with
    | [] => (OutOfDraws, st)
    | u :: rest => (Return u, mkStore rest (spec_uuids st) (mapping st))
    end.

(** A dataclass constructor call: [uuid] gets [uuid4()] from its
    [default_factory], and the new object gets a fresh address. *)
Definition construct (mk : Addr -> FeatureSpec Addr) : M (FeatureSpec Addr) :=
  u <- uuid4 ;;
  fun st =>
    (Return (mk (length (spec_uuids st))),
     mkStore (uuid4_draws st) (spec_uuids st ++ [u]) (mapping st)).

(** [spec.uuid] *)
Definition read_uuid (st : Store) (a : Addr) : UUID := default 0%N (spec_uuids st !! a).

Definition getattr_uuid (a : Addr) : M UUID := fun st => (Return (read_uuid st a), st).

(** [mapping[k] = feature] *)
Definition mapping_setitem (k : UUID) (feature : Feature) : M unit :=
  fun st => (Return tt, mkStore (uuid4_draws st) (spec_uuids st) (<[k := feature]> (mapping st))).

(** [while spec.uuid in mapping: spec.uuid = uuid4()], by recursion on
    the values [uuid4()] still has to give. *)
Fixpoint regenerate (a : Addr) (draws : list UUID) (st : Store) : Outcome unit * Store :=
  match mapping st !! read_uuid st a with
  | None => (Return tt, st)
  | Some _ =>
      match draws with
      | [] => (OutOfDraws, st)
      | u :: rest => regenerate a rest (mkStore rest (<[a := u]> (spec_uuids st)) (mapping st))
      end
  end.

Definition while_uuid_in_mapping (a : Addr) : M unit :=
  fun st => regenerate a (uuid4_draws st) st.

(** ** [build_feature_spec] ([_spec.py], lines 116-197)

    [Locals] are the two local variables of one call that outlive an
    iteration of the [for] loop: [spec] (unbound until its first
    assignment) and [feature_specs].  [for_body] is one iteration: the
    chain of branches on the interface type, then [loop_tail], the
    lines every branch that does not raise falls through to. *)

Abbreviation Spec := (FeatureSpec Addr) (only parsing).
Abbreviation Locals := (option (FeatureSpec Addr) * list (FeatureSpec Addr))%type (only parsing).

(** Lines 191-196. *)
Definition loop_tail (feature : Feature) (spec : option Spec) (feature_specs : list Spec)
  : M Locals :=
  match spec with
  | None => raise (UnboundLocalError "spec")
  | Some s =>
      _ <- while_uuid_in_mapping (spec_uuid s) ;;
      let feature_specs := (feature_specs ++ [s]) in
      k <- getattr_uuid (spec_uuid s) ;;
      _ <- mapping_setitem k feature ;;
      ret (Some s, feature_specs)
  end.

Section Build.
(** The camera is only read. *)
Variable cam : Camera.

Fixpoint for_body (feature : Feature) (locals : Locals) {struct feature} : M Locals :=
  let '(spec, feature_specs) := locals in
  match feature with
  | mkFeature n sub_features =>
      let display_name := node_display_name (cam n) in
      let visibility := node_visibility (cam n) in
      let interface_type := principal_interface_type (cam n) in
      spec <-
        match interface_type with
        | intfICategory =>
            children <-
              (fix for_loop (features : list Feature) (locals : Locals) : M (list Spec) :=
                 match features with
                 | [] => ret (snd locals)
                 | feature :: rest =>
                     locals <- for_body feature locals ;; for_loop rest locals
                 end) sub_features (None, []) ;;
            spec <- construct (CategoryFeatureSpec
                                 (node_display_name (cam n))
                                 (OfAccessMode (get_access_mode (cam n)))
                                 children) ;;
            ret (Some spec)
        | intfIInteger =>
            let access_mode := get_access_mode (cam n) in
            match access_mode with
            | RW =>
                value <- get_value (cam n) ;;
                spec <- construct (IntegerFeatureSpec display_name (OfVisibility visibility)
                                     access_mode value
                                     (node_min (cam n)) (node_max (cam n)) (node_inc (cam n))) ;;
                ret (Some spec)
            | RO =>
                value <- get_value (cam n) ;;
                spec <- construct (IntegerFeatureSpec display_name (OfVisibility visibility)
                                     access_mode value PyNone PyNone PyNone) ;;
                ret (Some spec)
            | NA => ret spec                                   (* [pass] *)
            | _ => raise (ValueError "Unexpected EAccessMode(access_mode)")
            end
        | intfICommand =>
            spec <- construct (CommandFeatureSpec display_name (OfVisibility visibility)) ;;
            ret (Some spec)
        | intfIBoolean =>
            value <- get_value (cam n) ;;
            spec <- construct (BooleanFeatureSpec display_name (OfVisibility visibility)
                                 (get_access_mode (cam n)) value) ;;
            ret (Some spec)
        | intfIEnumeration =>
            value <- get_value (cam n) ;;
            spec <- construct (EnumFeatureSpec display_name (OfVisibility visibility)
                                 (get_access_mode (cam n)) value
                                 (node_entries (cam n))) ;;
            ret (Some spec)
        | intfIString =>
            value <- get_value (cam n) ;;
            spec <- construct (StringFeatureSpec display_name (OfVisibility visibility)
                                 (get_access_mode (cam n)) value) ;;
            ret (Some spec)
        | intfIFloat =>
            value <- get_value (cam n) ;;
            spec <- construct (FloatFeatureSpec display_name (OfVisibility visibility)
                                 (get_access_mode (cam n)) value) ;;
            ret (Some spec)
        | _ => raise (ValueError "Unexpected interface type")
        end ;;
      loop_tail feature spec feature_specs
  end.

Fixpoint for_loop (features : list Feature) (locals : Locals) : M (list Spec) :=
  match features with
  | [] => ret (snd locals)
  | feature :: rest => locals <- for_body feature locals ;; for_loop rest locals
  end.

(** The call [build_feature_spec(features, mapping)]; the second
    component of the returned pair is the dict [mapping] itself, which
    is the field [mapping] of the store after the call. *)
Definition build_feature_spec (features : list Feature) : M (list Spec) :=
  for_loop features (None, []).
End Build.

(** What a reader of the returned list sees. *)
Definition read_specs (st : Store) (specs : list Spec) : list (FeatureSpec UUID) :=
  map (spec_map (read_uuid st)) specs.

(** ** The camera unit ([__init__.py], [HarvesterCam])

    The vendor SDK is external: what executing a command, starting or
    stopping acquisition and assigning [feature.value] do to the camera
    is a parameter.  An assignment either returns or raises; either way
    it leaves the camera in some state. *)

Record SDK := mkSDK {
  sdk_execute : NodeId -> Camera -> Camera;                       (* [feature.execute()] *)
  sdk_start : Camera -> Camera;                                   (* [ia.start()] *)
  sdk_stop : Camera -> Camera;                                    (* [ia.stop()] *)
  sdk_set_value : NodeId -> PyValue -> Camera -> option Exception * Camera
                                                                  (* [feature.value = v] *)
}.

Inductive Mode := STOPPED | PAUSED | STARTED.

#[global] Instance Mode_eq_dec : EqDecision Mode.
Proof. solve_decision. Defined.

(** [self.STATE.mapping] is a reference: to the dict made by
    [default_factory=dict] when the state was created, which nothing
    writes to, or to the dict a call of [build_feature_spec] returned.
    Every call in the unit omits the argument [mapping], so that dict is
    the one bound to the default [mapping={}], the same object for all
    calls: the field [mapping] of [interp]. *)
Inductive DictRef := InitialDict | DefaultArgumentDict.

Record ImageAcquirer := mkIA {
  root_features : list Feature        (* [ia.remote_device.node_map.Root.features] *)
}.

Record World := mkWorld {
  interp : Store;
  camera : Camera;
  ia : option ImageAcquirer;
  mode : Mode;
  mode_change_ev : bool;
  STATE_mapping : DictRef
}.

Definition deref_mapping (w : World) : gmap UUID Feature :=
  match STATE_mapping w with
  | InitialDict => ∅
  | DefaultArgumentDict => mapping (interp w)
  end.

(** Messages on [OUTPUT_CTRL]. *)
Inductive CtrlMessage :=
| FeatureSpecs (specs : list (FeatureSpec UUID))
| Value (fv : FeatureValue).

(** [str.replace(" ", "")] *)
Fixpoint remove_spaces (s : string) : string :=
  match s with
  | EmptyString => EmptyString
  | String c rest =>
      if Ascii.eqb c " "%char then remove_spaces rest else String c (remove_spaces rest)
  end.

Section HarvesterCam.
Variable sdk : SDK.

(** [specs, mapping = build_feature_spec(ia.remote_device.node_map.Root.features)]
    [self.STATE.mapping = mapping] *)
Definition rebuild (w : World) : Outcome (list (FeatureSpec UUID)) * World :=
  match ia w with
  | None =>
      (Raise (AttributeError "'NoneType' object has no attribute 'remote_device'"), w)
  | Some acquirer =>
      match build_feature_spec (camera w) (root_features acquirer) (interp w) with
      | (Return specs, st) =>
          (Return (read_specs st specs),
           mkWorld st (camera w) (ia w) (mode w) (mode_change_ev w) DefaultArgumentDict)
      | (Raise e, st) =>
          (Raise e, mkWorld st (camera w) (ia w) (mode w) (mode_change_ev w) (STATE_mapping w))
      | (OutOfDraws, st) =>
          (OutOfDraws, mkWorld st (camera w) (ia w) (mode w) (mode_change_ev w) (STATE_mapping w))
      end
  end.

(** [send_ctrl]: the messages it yields. *)
Definition send_ctrl (w : World) : Outcome (list CtrlMessage) * World :=
  match ia w with
  | None => (Return [], w)
  | Some _ =>
      match rebuild w with
      | (Return specs, w) => (Return [FeatureSpecs specs], w)
      | (Raise e, w) => (Raise e, w)
      | (OutOfDraws, w) => (OutOfDraws, w)
      end
  end.

Definition with_camera (cam : Camera) (w : World) : World :=
  mkWorld (interp w) cam (ia w) (mode w) (mode_change_ev w) (STATE_mapping w).

Definition with_mode (m : Mode) (w : World) : World :=
  mkWorld (interp w) (camera w) (ia w) m (mode_change_ev w) (STATE_mapping w).

(** [if self.STATE.ia is not None: self.STATE.ia.start()], and the same
    with [stop]. *)
Definition ia_start (w : World) : World :=
  match ia w with
  | Some _ => with_camera (sdk_start sdk (camera w)) w
  | None => w
  end.

Definition ia_stop (w : World) : World :=
  match ia w with
  | Some _ => with_camera (sdk_stop sdk (camera w)) w
  | None => w
  end.

(** The last four lines of both mode-changing branches: rebuild, store
    the mapping, set the event, yield the specs. *)
Definition rebuild_and_publish (w : World) : Outcome (list CtrlMessage) * World :=
  match rebuild w with
  | (Return specs, w) =>
      (Return [FeatureSpecs specs],
       mkWorld (interp w) (camera w) (ia w) (mode w) true (STATE_mapping w))
  | (Raise e, w) => (Raise e, w)
  | (OutOfDraws, w) => (OutOfDraws, w)
  end.

(** [on_ctrl].  [isinstance(feature, IInteger)] and the like ask for
    the class of the handle, which the SDK chooses by the node's
    principal interface type. *)
Definition on_ctrl (message : FeatureValue) (w : World) : Outcome (list CtrlMessage) * World :=
  if bool_decide (source message <> CONTROLLER) then (Return [], w)
  else
    match deref_mapping w !! uuid message with
    | None => (Return [], w)                       (* warning: UUID not found in mapping *)
    | Some feature =>
        let n := feature_node feature in
        match principal_interface_type (camera w n) with
        | intfICategory => (Return [], w)
        | intfICommand =>
            let w := with_camera (sdk_execute sdk n (camera w)) w in
            let display_name := node_display_name (camera w n) in
            if String.eqb (remove_spaces display_name) "AcquisitionStart"
               && bool_decide (mode w <> STARTED)
            then
              let w := ia_start w in
              let w := with_mode STARTED w in
              rebuild_and_publish w
            else if String.eqb (remove_spaces display_name) "AcquisitionStop"
                    && bool_decide (mode w <> STOPPED)
            then
              let w := ia_stop w in
              let w := with_mode STOPPED w in
              rebuild_and_publish w
            else (Return [], w)
        | intfIInteger | intfIFloat | intfIBoolean | intfIEnumeration | intfIString =>
            match sdk_set_value sdk n (value message) (camera w) with
            | (None, cam) => (Return [], with_camera cam w)
            | (Some e, cam) =>               (* [except Exception as e] *)
                (v <- get_value (cam n) ;;       (* [feature.value], in the handler *)
                 ret [Value (mkFeatureValue CAMERA (uuid message) v)]) (with_camera cam w)
            end
        | _ => (Raise (ValueError "Unexpected interface type"), w)
        end
    end.
End HarvesterCam.

(** ** Frame decoding ([__init__.py], [on_image], lines 172-233)

    [harvesters.util.pfnc] is external: its predicate [is_custom], its
    lookup [get_bits_per_pixel] and its six lists of format names are
    parameters. *)

Record Pfnc := mkPfnc {
  is_custom : Z -> bool;
  get_bits_per_pixel : option string -> option Z;
  mono_location_formats : list string;
  bayer_location_formats : list string;
  rgb_formats : list string;
  rgba_formats : list string;
  bgr_formats : list string;
  bgra_formats : list string
}.

(** A numpy array: element type, shape, and the elements in row-major
    order.  The raw samples of a component are unsigned integers. *)
Inductive DType := uint8 | uint16.

Record ndarray := mkArray {
  dtype : DType;
  shape : list nat;
  flat : list Z
}.

Inductive Result (A : Type) :=
| Ok (a : A)
| Err (e : Exception).
Arguments Ok {A}.
Arguments Err {A}.

(** [a.reshape(dims)] *)
Definition reshape (a : ndarray) (dims : list nat) : Result ndarray :=
  if bool_decide (foldr Nat.mul 1 dims = length (flat a))
  then Ok (mkArray (dtype a) dims (flat a))
  else Err (ValueError "cannot reshape array").

(** [content[:, :, ::-1]]: every run of [c] consecutive elements (one
    pixel) is reversed; [n] is the number of pixels. *)
Fixpoint reverse_pixels (n c : nat) (l : list Z) : list Z :=
  match n with
  | 0 => []
  | S n' => reverse (take c l) ++ reverse_pixels n' c (drop c l)
  end.

Definition reverse_last_axis (a : ndarray) : ndarray :=
  match shape a with
  | [h; w; c] => mkArray (dtype a) (shape a) (reverse_pixels (h * w) c (flat a))
  | _ => a
  end.

(** [(content / 2**exponent).astype(np.uint8)] on one sample.  The
    quotient of a 16-bit sample by a power of two is exact in binary64,
    and the cast drops the fraction; a quotient of 256 or more does not
    fit and wraps. *)
Definition downscale (exponent : Z) (v : Z) : Z := (v / 2 ^ exponent) mod 256.

Definition to_8bit (exponent : Z) (a : ndarray) : ndarray :=
  mkArray uint8 (shape a) (map (downscale exponent) (flat a)).

Record Component := mkComponent {
  width : nat;
  height : nat;
  data_format_value : Z;
  data_format : string;
  num_components_per_pixel : nat;     (* [int(component.num_components_per_pixel)] *)
  data : ndarray
}.

(** [x in formats], where [x] may be [None]. *)
Definition format_in (x : option string) (formats : list string) : bool :=
  match x with
  | Some name => bool_decide (name ∈ formats)
  | None => false
  end.

Section Decoder.
Variable pfnc : Pfnc.

Definition exponent_of (data_format : option string) : Z :=
  match get_bits_per_pixel pfnc data_format with
  | Some bpp => bpp - 8
  | None => 0
  end.

(** From [component = payload.components[0]] to [content]. *)
Definition decode (component : Component) : Result ndarray :=
  let width := width component in
  let height := height component in
  let data_format :=
    if is_custom pfnc (data_format_value component) then None
    else Some (data_format component) in
  let exponent := exponent_of data_format in
  if format_in data_format (mono_location_formats pfnc)
     || format_in data_format (bayer_location_formats pfnc)
  then reshape (data component) [height; width]
  else
    let content :=
      if format_in data_format (rgb_formats pfnc)
         || format_in data_format (rgba_formats pfnc)
         || format_in data_format (bgr_formats pfnc)
         || format_in data_format (bgra_formats pfnc)
      then
        match reshape (data component)
                [height; width; num_components_per_pixel component] with
        | Ok content =>
            if format_in data_format (bgr_formats pfnc)
            then Ok (reverse_last_axis content)
            else Ok content
        | Err e => Err e
        end
      else Err (Error "Should not reach this.") in
    match content with
    | Ok content =>
        if (exponent >? 0)%Z then Ok (to_8bit exponent content) else Ok content
    | Err e => Err e
    end.

(** What one pass of the [STARTED] branch yields on [OUTPUT_SIGNAL]
    for the result of [ia.fetch]. *)
Inductive Fetched :=
| TimeoutException
| NoBuffer                                     (* [buffer is None] *)
| Buffer (components : list Component).

Record AxisArray := mkAxisArray {
  axis_data : ndarray;                         (* [deepcopy(content)] *)
  dims : list string
}.

(** [AxisArray(data=..., dims=[...], axes=...)].  The dataclass of
    [ezmsg.util.messages.axisarray] is external; its [__post_init__]
    takes the data only with one dimension name for each of its
    dimensions and raises [ValueError] otherwise. *)
Definition new_AxisArray (data : ndarray) (dims : list string) : Result AxisArray :=
  if bool_decide (length dims = length (shape data))
  then Ok (mkAxisArray data dims)
  else Err (ValueError "dims must be same length as data.shape").

Definition on_image_started (fetched : Fetched) : Result (list AxisArray) :=
  match fetched with
  | TimeoutException => Ok []
  | NoBuffer => Ok []
  | Buffer [] => Err (IndexError "list index out of range")
  | Buffer (component :: _) =>
      match decode component with
      | Ok content =>
          match new_AxisArray content ["rows"; "cols"] with
          | Ok axis_arr_out => Ok [axis_arr_out]
          | Err e => Err e
          end
      | Err e => Err e
      end
  end.
End Decoder.

(** ** The controller ([_gui.py])

    Widgets are objects of the GUI toolkit, shared between containers,
    the mapping and the closures connected to signals: they live in a
    store and are named by their address.  A signal is its list of
    connected slots, highest priority first, and its [blocked] flag. *)

Abbreviation WidgetId := nat (only parsing).

Inductive WidgetClass := Container | Label | ComboBox | SpinBox | PushButton | LineEdit.

#[global] Instance WidgetClass_eq_dec : EqDecision WidgetClass.
Proof. solve_decision. Defined.

(** The closures the code connects to [changed]. *)
Inductive Slot :=
| check_widget_visibility (widget : WidgetId) (spec_visibility : EnumMember)
| check_container_visibility (con label : WidgetId)
| on_value_changed (widget : WidgetId) (uuid : UUID).

Record Signal := mkSignal {
  slots : list (Slot * Z);
  blocked : bool
}.

Record Widget := mkWidget {
  widget_class : WidgetClass;
  name : string;
  widget_value : PyValue;
  choices : list PyValue;
  widget_min : PyValue;
  widget_max : PyValue;
  step : PyValue;
  enabled : bool;
  visible : bool;
  visible_override : option bool;     (* [None]: the attribute was never set *)
  labels : bool;
  layout : string;
  contents : list WidgetId;           (* the widgets of a [Container] *)
  changed : Signal;
  native_parent_changed : list WidgetId
    (* slots [lambda: cb.changed.emit(cb.value)], by the combo box [cb] *)
}.

Definition new_widget (cls : WidgetClass) (name : string) (value : PyValue) : Widget :=
  mkWidget cls name value [] PyNone PyNone PyNone true true None true "vertical" []
    (mkSignal [] false) [].

Record Gui := mkGui {
  widget_objects : list Widget;                 (* widget objects, by address *)
  widget_mapping : gmap UUID WidgetId;          (* the dict bound to parameter [mapping] *)
  self_mapping : DictRef;                       (* [GenicamController.mapping] *)
  scroll_area : option WidgetId;                (* [scroll_area.setWidget] *)
  command_signal : list FeatureValue            (* what [command_signal.emit] was given *)
}.

Definition G : Type -> Type := StateExc Gui.

Definition create (w : Widget) : G WidgetId :=
  fun g =>
    (Return (length (widget_objects g)),
     mkGui (widget_objects g ++ [w]) (widget_mapping g) (self_mapping g) (scroll_area g)
       (command_signal g)).

Definition get_widget (i : WidgetId) : G Widget :=
  fun g => (Return (default (new_widget Label "" PyNone) (widget_objects g !! i)), g).

Definition modify (i : WidgetId) (f : Widget -> Widget) : G unit :=
  fun g =>
    (Return tt,
     mkGui (alter f i (widget_objects g)) (widget_mapping g) (self_mapping g) (scroll_area g)
       (command_signal g)).

Definition set_enabled (b : bool) (w : Widget) : Widget :=
  mkWidget (widget_class w) (name w) (widget_value w) (choices w) (widget_min w) (widget_max w)
    (step w) b (visible w) (visible_override w) (labels w) (layout w) (contents w)
    (changed w) (native_parent_changed w).

Definition set_visible (b : bool) (o : option bool) (w : Widget) : Widget :=
  mkWidget (widget_class w) (name w) (widget_value w) (choices w) (widget_min w) (widget_max w)
    (step w) (enabled w) b o (labels w) (layout w) (contents w)
    (changed w) (native_parent_changed w).

Definition set_labels (b : bool) (w : Widget) : Widget :=
  mkWidget (widget_class w) (name w) (widget_value w) (choices w) (widget_min w) (widget_max w)
    (step w) (enabled w) (visible w) (visible_override w) b (layout w) (contents w)
    (changed w) (native_parent_changed w).

Definition set_contents (c : list WidgetId) (w : Widget) : Widget :=
  mkWidget (widget_class w) (name w) (widget_value w) (choices w) (widget_min w) (widget_max w)
    (step w) (enabled w) (visible w) (visible_override w) (labels w) (layout w) c
    (changed w) (native_parent_changed w).

Definition set_changed (s : Signal) (w : Widget) : Widget :=
  mkWidget (widget_class w) (name w) (widget_value w) (choices w) (widget_min w) (widget_max w)
    (step w) (enabled w) (visible w) (visible_override w) (labels w) (layout w) (contents w)
    s (native_parent_changed w).

Definition set_widget_value (v : PyValue) (w : Widget) : Widget :=
  mkWidget (widget_class w) (name w) v (choices w) (widget_min w) (widget_max w)
    (step w) (enabled w) (visible w) (visible_override w) (labels w) (layout w) (contents w)
    (changed w) (native_parent_changed w).

Definition set_native_parent_changed (l : list WidgetId) (w : Widget) : Widget :=
  mkWidget (widget_class w) (name w) (widget_value w) (choices w) (widget_min w) (widget_max w)
    (step w) (enabled w) (visible w) (visible_override w) (labels w) (layout w) (contents w)
    (changed w) l.

(** [signal.connect(slot, priority=p)]: after the slots whose priority
    is at least [p]. *)
Fixpoint insert_slot (s : Slot) (p : Z) (l : list (Slot * Z)) : list (Slot * Z) :=
  match l with
  | [] => [(s, p)]
  | (s', p') :: rest =>
      if (p' <? p)%Z then (s, p) :: l else (s', p') :: insert_slot s p rest
  end.

Definition connect (i : WidgetId) (s : Slot) (p : Z) : G unit :=
  modify i (fun w => set_changed (mkSignal (insert_slot s p (slots (changed w)))
                                    (blocked (changed w))) w).

(** [mapping[k] = widget] *)
Definition widget_mapping_setitem (k : UUID) (i : WidgetId) : G unit :=
  fun g =>
    (Return tt,
     mkGui (widget_objects g) (<[k := i]> (widget_mapping g)) (self_mapping g) (scroll_area g)
       (command_signal g)).

(** [[vis for vis in EVisibility._member_names_ if not vis.startswith("_")]] *)
Definition visibility_choices : list PyValue :=
  [PyStr "Beginner"; PyStr "Expert"; PyStr "Guru"; PyStr "Invisible"].

(** *** The value of a widget

    The toolkit ([magicgui] on Qt) is external.  Its setter of
    [widget.value] gives a [LineEdit] and a [Label] the text [str(v)]
    of any value; every other widget checks the value (a [SpinBox]
    against its range, a [ComboBox] against its choices) and takes it
    as it is or raises.  The check is the parameter [validate]; of
    Python's [str], the text of a float is the parameter [float_repr]
    of its mantissa and exponent. *)
Section Toolkit.
Variable validate : Widget -> PyValue -> option Exception.
Variable float_repr : Z -> Z -> string.

(** [str(v)] *)
Definition str (v : PyValue) : string :=
  match v with
  | PyNone => "None"
  | PyInt z => pretty z
  | PyBool true => "True"
  | PyBool false => "False"
  | PyStr s => s
  | PyFloat mantissa exponent => float_repr mantissa exponent
  end.

(** What the setter of [w] makes of [v]: the exception it raises or
    the value the widget then holds. *)
Definition value_setter (w : Widget) (v : PyValue) : Exception + PyValue :=
  match widget_class w with
  | LineEdit | Label => inr (PyStr (str v))
  | _ =>
      match validate w v with
      | Some e => inl e
      | None => inr v
      end
  end.

(** A constructor call with the argument [value=v]: the constructor
    makes the widget [w] from its other arguments and gives [v] to its
    setter; no slot is connected yet. *)
Definition new_value_widget (w : Widget) (v : PyValue) : G WidgetId :=
  match value_setter w v with
  | inl e => raise e
  | inr v' => create (set_widget_value v' w)
  end.

(** The first lines of [build_widgets_from_spec]: the container of this
    call and the visibility selector its controls listen to. *)
Definition new_container (cb_visibility : option WidgetId) : G (WidgetId * WidgetId) :=
  widgets <- create (set_labels false (new_widget Container "" PyNone)) ;;
  match cb_visibility with
  | None =>
      cb_visibility <- create (mkWidget ComboBox "" PyNone visibility_choices PyNone PyNone
                                 PyNone true true None true "vertical" [] (mkSignal [] false) []) ;;
      _ <- modify widgets (set_native_parent_changed [cb_visibility]) ;;
      label <- create (new_widget Label "" (PyStr "Visibility")) ;;
      row <- create (mkWidget Container "" PyNone [] PyNone PyNone PyNone true true None true
                       "horizontal" [label; cb_visibility] (mkSignal [] false) []) ;;
      _ <- modify widgets (fun w => set_contents (contents w ++ [row]) w) ;;
      ret (widgets, cb_visibility)
  | Some cb_visibility =>
      _ <- modify widgets (set_labels true) ;;
      ret (widgets, cb_visibility)
  end.

(** One iteration of [for spec in specs], in the call whose container
    is [widgets].  A Category spec calls [build_widgets_from_spec]
    again, with the same selector and the same dict [mapping]. *)
Fixpoint for_spec (cb_visibility widgets : WidgetId) (spec : FeatureSpec UUID) {struct spec}
  : G unit :=
  widget <-
    match spec with
    | CategoryFeatureSpec display_name _ children _ =>
        p <- new_container (Some cb_visibility) ;;
        let widget := fst p in
        _ <- (fix for_specs (specs : list (FeatureSpec UUID)) : G unit :=
                match specs with
                | [] => ret tt
                | spec :: rest => _ <- for_spec (snd p) widget spec ;; for_specs rest
                end) children ;;
        category_label <- create (new_widget Label display_name PyNone) ;;
        _ <- modify widget (fun w => set_contents (category_label :: contents w) w) ;;
        _ <- connect cb_visibility (check_container_visibility widget category_label) (-1) ;;
        ret widget
    | IntegerFeatureSpec display_name _ _ value min max inc _ =>
        new_value_widget
          (mkWidget SpinBox display_name PyNone [] min max inc true true None true
             "vertical" [] (mkSignal [] false) []) value
    | CommandFeatureSpec display_name _ _ =>
        create (new_widget PushButton display_name PyNone)
    | BooleanFeatureSpec display_name _ _ value _ =>
        new_value_widget
          (mkWidget ComboBox display_name PyNone [PyBool true; PyBool false] PyNone PyNone
             PyNone true true None true "vertical" [] (mkSignal [] false) []) value
    | EnumFeatureSpec display_name _ _ value items _ =>
        new_value_widget
          (mkWidget ComboBox display_name PyNone (map PyStr items) PyNone PyNone
             PyNone true true None true "vertical" [] (mkSignal [] false) []) value
    | StringFeatureSpec display_name _ _ value _ =>
        new_value_widget (new_widget LineEdit display_name PyNone) value
    | FloatFeatureSpec display_name _ _ value _ =>
        new_value_widget (new_widget LineEdit display_name PyNone) value
    end ;;
  _ <- (if bool_decide (spec_access_mode spec = Some RO)
        then modify widget (set_enabled false) else ret tt) ;;
  w <- get_widget widget ;;
  _ <- (if bool_decide (widget_class w ≠ Container)
        then
          _ <- connect cb_visibility (check_widget_visibility widget (spec_visibility spec)) 0 ;;
          connect widget (on_value_changed widget (spec_uuid spec)) 0
        else ret tt) ;;
  _ <- modify widgets (fun w => set_contents (contents w ++ [widget]) w) ;;
  widget_mapping_setitem (spec_uuid spec) widget.

Definition for_specs (cb_visibility widgets : WidgetId) : list (FeatureSpec UUID) -> G unit :=
  fix for_specs (specs : list (FeatureSpec UUID)) : G unit :=
    match specs with
    | [] => ret tt
    | spec :: rest => _ <- for_spec cb_visibility widgets spec ;; for_specs rest
    end.

(** [build_widgets_from_spec(specs, cb_visibility, mapping)]; the
    returned dict is [mapping] itself, the field [widget_mapping] of
    the store after the call. *)
Definition build_widgets_from_spec (specs : list (FeatureSpec UUID))
    (cb_visibility : option WidgetId) : G WidgetId :=
  p <- new_container cb_visibility ;;
  _ <- for_specs (snd p) (fst p) specs ;;
  ret (fst p).

(** The integer values of the enumeration members (GenApi), which
    [spec.visibility > EVisibility[level]] compares. *)
Definition member_code (m : EnumMember) : Z :=
  match m with
  | OfVisibility Beginner => 0
  | OfVisibility Expert => 1
  | OfVisibility Guru => 2
  | OfVisibility Invisible => 3
  | OfVisibility UndefinedVisibility => 99
  | OfAccessMode NI => 0
  | OfAccessMode NA => 1
  | OfAccessMode WO => 2
  | OfAccessMode RO => 3
  | OfAccessMode RW => 4
  | OfAccessMode UndefinedAccesMode => 5
  | OfAccessMode CycleDetectAccesMode => 6
  end.

(** [EVisibility[level]] *)
Definition EVisibility_getitem (level : PyValue) : option EVisibility :=
  match level with
  | PyStr "Beginner" => Some Beginner
  | PyStr "Expert" => Some Expert
  | PyStr "Guru" => Some Guru
  | PyStr "Invisible" => Some Invisible
  | PyStr "_UndefinedVisibility" => Some UndefinedVisibility
  | _ => None
  end.

(** [[each.visible_override for each in con if each != label]] *)
Fixpoint visible_overrides (label : WidgetId) (con : list WidgetId) : G (list bool) :=
  match con with
  | [] => ret []
  | each :: rest =>
      if bool_decide (each ≠ label) then
        w <- get_widget each ;;
        match visible_override w with
        | None => raise (AttributeError "visible_override")
        | Some b => bs <- visible_overrides label rest ;; ret (b :: bs)
        end
      else visible_overrides label rest
  end.

(** Calling a connected slot with the emitted value: the bodies of the
    three [inner] functions. *)
Definition call_slot (s : Slot) (arg : PyValue) : G unit :=
  match s with
  | check_widget_visibility widget spec_visibility =>
      match EVisibility_getitem arg with
      | None => raise (KeyError "level")
      | Some level =>
          if (member_code spec_visibility >? member_code (OfVisibility level))%Z
          then modify widget (set_visible false (Some false))
          else modify widget (set_visible true (Some true))
      end
  | check_container_visibility con label =>
      c <- get_widget con ;;
      bs <- visible_overrides label (contents c) ;;
      modify label (fun w => set_visible (existsb id bs) (visible_override w) w)
  | on_value_changed widget uuid =>
      fun g =>
        (Return tt,
         mkGui (widget_objects g) (widget_mapping g) (self_mapping g) (scroll_area g)
           (command_signal g ++ [mkFeatureValue CONTROLLER uuid arg]))
  end.

Fixpoint call_slots (l : list (Slot * Z)) (arg : PyValue) : G unit :=
  match l with
  | [] => ret tt
  | (s, _) :: rest => _ <- call_slot s arg ;; call_slots rest arg
  end.

(** [widget.changed.emit(arg)]: a blocked signal calls no slot. *)
Definition emit_changed (widget : WidgetId) (arg : PyValue) : G unit :=
  w <- get_widget widget ;;
  if blocked (changed w) then ret tt else call_slots (slots (changed w)) arg.

Definition set_blocked (b : bool) (widget : WidgetId) : G unit :=
  modify widget (fun w => set_changed (mkSignal (slots (changed w)) b) w).

(** [with widget.changed.blocked(): body]: the flag is restored when
    the block is left, also by an exception. *)
Definition with_changed_blocked {A} (widget : WidgetId) (body : G A) : G A :=
  w <- get_widget widget ;;
  let previous := blocked (changed w) in
  _ <- set_blocked true widget ;;
  fun g =>
    let '(r, g') := body g in
    (r, snd (set_blocked previous widget g')).

(** [widget.value = v]: when the setter takes the value and the
    widget does not hold it already, the widget holds it from now on
    and announces it on [changed]; a value the widget holds already is
    not announced. *)
Definition assign_value (widget : WidgetId) (v : PyValue) : G unit :=
  w <- get_widget widget ;;
  match value_setter w v with
  | inl e => raise e
  | inr v' =>
      if bool_decide (v' = widget_value w) then ret tt
      else _ <- modify widget (set_widget_value v') ;; emit_changed widget v'
  end.

Definition deref_widget_mapping (g : Gui) : gmap UUID WidgetId :=
  match self_mapping g with
  | InitialDict => ∅
  | DefaultArgumentDict => widget_mapping g
  end.

(** [GenicamController.on_feature_specs]: the call passes neither
    [cb_visibility] nor [mapping]. *)
Definition on_feature_specs (specs : list (FeatureSpec UUID)) : G unit :=
  widgets <- build_widgets_from_spec specs None ;;
  fun g =>
    (Return tt,
     mkGui (widget_objects g) (widget_mapping g) DefaultArgumentDict (Some widgets)
       (command_signal g)).

(** [GenicamController.on_feature_value] *)
Definition on_feature_value (feature : FeatureValue) : G unit :=
  if bool_decide (source feature ≠ CAMERA) then ret tt
  else
    fun g =>
      match deref_widget_mapping g !! uuid feature with
      | Some widget => with_changed_blocked widget (assign_value widget (value feature)) g
      | None => (Return tt, g)
      end.
End Toolkit.

(** ** [HarvesterCam.initialize], [shutdown], and sequences of calls *)

Record HarvesterCamSettings := mkSettings {
  cti_file : string;
  profile : bool;
  connect_first_available : bool;
  auto_start : bool;
  cam_timeout : PyValue
}.

(** A call of one of the two handlers of the control stream. *)
Inductive Call :=
| SendCtrl
| OnCtrl (message : FeatureValue).

Section Lifecycle.
Variable sdk : SDK.

(** [initialize].  [devices] stands for the backend after [add_file]
    and [update]: one entry per element of [core.device_info_list],
    holding what [core.create] gives for it.  The state starts with its
    defaults ([ia] is [None], [mode] is [STOPPED], [mapping] is a new
    dict) and a new event. *)
Definition initialize (settings : HarvesterCamSettings) (devices : list ImageAcquirer)
    (interp : Store) (cam : Camera) : World :=
  let ia :=
    if negb (Nat.eqb (length devices) 0) && connect_first_available settings
    then head devices                            (* [core.create(0)] *)
    else None in
  let w := mkWorld interp cam ia STOPPED false InitialDict in
  if auto_start settings && bool_decide (ia <> None)
  then ia_start sdk (with_mode STARTED w)
  else w.

(** [shutdown], up to [core.reset()], which touches nothing the model
    of the unit holds. *)
Definition shutdown (w : World) : World := ia_stop sdk w.

Definition call (c : Call) (w : World) : Outcome (list CtrlMessage) * World :=
  match c with
  | SendCtrl => send_ctrl w
  | OnCtrl message => on_ctrl sdk message w
  end.

(** The unit after a sequence of calls; a call that raises ends there
    and leaves the state it had reached. *)
Fixpoint run (calls : list Call) (w : World) : World :=
  match calls with
  | [] => w
  | c :: rest => run rest (snd (call c w))
  end.
End Lifecycle.

(** * Predicates and inputs of the statements *)

(** ** Predicates *)

(** The identifiers of a returned list of trees. *)
Definition identifiers (st : Store) (specs : list Spec) : list UUID :=
  flat_map tree_uuids (read_specs st specs).

(** A node on which [build_feature_spec] takes the [pass] branch. *)
Definition takes_pass (cam : Camera) (n : NodeId) : bool :=
  bool_decide (principal_interface_type (cam n) = intfIInteger)
  && bool_decide (get_access_mode (cam n) = NA).

(** No node that the traversal of [feature] reaches is one; the
    sub-features of a node are visited only under a Category. *)
Fixpoint never_passes (cam : Camera) (feature : Feature) : bool :=
  match feature with
  | mkFeature n sub_features =>
      negb (takes_pass cam n)
      && (if bool_decide (principal_interface_type (cam n) = intfICategory)
          then forallb (never_passes cam) sub_features
          else true)
  end.

(** From [st] to [st'] the objects at [addrs] were created, with the
    identifiers [us], and entered in the mapping; nothing else changed
    in the object store or in the key set of the mapping. *)
Definition created (st st' : Store) (addrs : list Addr) (us : list UUID) : Prop :=
  spec_uuids st' = spec_uuids st ++ us
  /\ addrs ≡ₚ seq (length (spec_uuids st)) (length us)
  /\ NoDup us
  /\ (forall u, u ∈ us -> mapping st !! u = None)
  /\ dom (mapping st') = dom (mapping st) ∪ list_to_set us.

(** What an iteration that returns has done. *)
Definition iteration_creates (cam : Camera) (feature : Feature) : Prop :=
  never_passes cam feature = true ->
  forall spec feature_specs st o st',
    for_body cam feature (spec, feature_specs) st = (Return o, st') ->
    exists s us,
      o = (Some s, feature_specs ++ [s]) /\ created st st' (tree_uuids s) us.

(** The node kinds that have a value: the kinds of the branch of
    [on_ctrl] that assigns [feature.value], and the kinds whose spec
    has the fields [access_mode] and [value]. *)
Definition value_bearing (t : EInterfaceType) : bool :=
  match t with
  | intfIInteger | intfIFloat | intfIBoolean | intfIEnumeration | intfIString => true
  | _ => false
  end.

(** A computation that leaves every key of a dict of its store in
    place, however it ends. *)
Definition keeps_keys {S A} (keys : S -> gset UUID) (m : StateExc S A) : Prop :=
  forall st, keys st ⊆ keys (snd (m st)).

Definition store_keys (st : Store) : gset UUID := dom (mapping st).
Definition gui_keys (g : Gui) : gset UUID := dom (widget_mapping g).

(** Element [(y, x, k)] of a three-dimensional array. *)
Definition pixel_sample (a : ndarray) (y x k : nat) : option Z :=
  match shape a with
  | [h; w; c] =>
      if (y <? h) && (x <? w) && (k <? c) then flat a !! ((y * w + x) * c + k) else None
  | _ => None
  end.

(** What the 8-bit conversion does to one sample of a format: nothing
    when the format has at most 8 bits per sample or no known depth. *)
Definition normalise (pfnc : Pfnc) (data_format : option string) (v : Z) : Z :=
  if (exponent_of pfnc data_format >? 0)%Z
  then downscale (exponent_of pfnc data_format) v
  else v.

(** ** A camera, an SDK, format tables and a toolkit for the concrete runs

    Node 0 of the camera is the command "Acquisition Start", node 1 an
    Integer that is Not-Available (the timestamp), node 2 a Category,
    node 3 a Read-Write Integer; any other node is a Read-Only String. *)

Definition demo_camera : Camera :=
  fun n =>
    match n with
    | 0 => mkNode "Acquisition Start" Beginner intfICommand RW PyNone PyNone PyNone PyNone []
    | 1 => mkNode "Timestamp" Expert intfIInteger NA (PyInt 0) PyNone PyNone PyNone []
    | 2 => mkNode "Image Format" Beginner intfICategory RO PyNone PyNone PyNone PyNone []
    | 3 => mkNode "Width" Beginner intfIInteger RW (PyInt 640) (PyInt 8) (PyInt 1920) (PyInt 8) []
    | _ => mkNode "Vendor" Guru intfIString RO (PyStr "acme") PyNone PyNone PyNone []
    end.

Definition acquisition_start : Feature := mkFeature 0 [].
Definition timestamp : Feature := mkFeature 1 [].
Definition image_format : Feature := mkFeature 2 [mkFeature 3 []].
Definition width_feature : Feature := mkFeature 3 [].

(** A fresh interpreter: [uuid4()] will return 10, 11, 12, ...; no spec
    object exists; the default-argument dict is empty. *)
Definition fresh_store : Store := mkStore [10; 11; 12; 13; 14; 15]%N [] ∅.

Definition set_node_value (n : NodeId) (v : PyValue) (cam : Camera) : Camera :=
  fun k =>
    if Nat.eqb k n
    then mkNode (node_display_name (cam n)) (node_visibility (cam n))
           (principal_interface_type (cam n)) (get_access_mode (cam n)) v
           (node_min (cam n)) (node_max (cam n)) (node_inc (cam n)) (node_entries (cam n))
    else cam k.

(** Commands and start/stop leave the node states alone; a node that
    is writable (Write-Only or Read-Write) takes an integer between 8
    and 1920, and every other assignment is refused without a change. *)
Definition demo_sdk : SDK :=
  mkSDK (fun _ cam => cam) (fun cam => cam) (fun cam => cam)
    (fun n v cam =>
       match get_access_mode (cam n) with
       | WO | RW =>
           match v with
           | PyInt z =>
               if ((8 <=? z) && (z <=? 1920))%Z then (None, set_node_value n v cam)
               else (Some (ValueError "out of range"), cam)
           | _ => (Some (ValueError "not an integer"), cam)
           end
       | _ => (Some (AccessException "Node is not writable."), cam)
       end).

(** The unit after [initialize] with a connected camera whose root holds
    the features [root]. *)
Definition connected (root : list Feature) : World :=
  mkWorld fresh_store demo_camera (Some (mkIA root)) STOPPED false InitialDict.

(** The unit after [send_ctrl] on a camera whose root holds the
    Read-Write Integer "Width": identifier 10 leads to that node. *)
Definition serving_width : World :=
  mkWorld (mkStore [11; 12; 13; 14; 15]%N [10%N] (<[10%N := width_feature]> ∅))
    demo_camera (Some (mkIA [width_feature])) STOPPED false DefaultArgumentDict.

(** A few formats of the Pixel Format Naming Convention, whose custom
    formats have bit 31 set. *)
Definition demo_pfnc : Pfnc :=
  mkPfnc (fun v => Z.testbit v 31)
    (fun data_format =>
       match data_format with
       | Some "Mono8" | Some "RGB8" | Some "BGR8" => Some 8%Z
       | Some "Mono16" | Some "BGR16" => Some 16%Z
       | _ => None
       end)
    ["Mono8"; "Mono16"] ["BayerRG8"] ["RGB8"] ["RGBa8"] ["BGR8"; "BGR16"] ["BGRa8"].

(** Two BGR8 pixels side by side: (B, G, R) = (1, 2, 3) and (4, 5, 6). *)
Definition bgr8_component : Component :=
  mkComponent 2 1 0x02180015 "BGR8" 3 (mkArray uint8 [6] [1; 2; 3; 4; 5; 6]%Z).

(** Two Mono16 pixels, 256 and 65535. *)
Definition mono16_component : Component :=
  mkComponent 2 1 0x01100007 "Mono16" 1 (mkArray uint16 [2] [256; 65535]%Z).

(** A controller that has not been sent anything. *)
Definition fresh_gui : Gui := mkGui [] ∅ InitialDict None [].

(** A toolkit: a [SpinBox] takes the integers of its range, a
    [ComboBox] its choices, and any other widget every value. *)
Definition demo_validate : Widget -> PyValue -> option Exception :=
  fun w v =>
    match widget_class w with
    | SpinBox =>
        match v, widget_min w, widget_max w with
        | PyInt z, PyInt lo, PyInt hi =>
            if ((lo <=? z) && (z <=? hi))%Z then None
            else Some (ValueError "value is outside of the allowed range")
        | PyInt _, _, _ => None
        | _, _, _ => Some (ValueError "not an integer")
        end
    | ComboBox =>
        if bool_decide (v ∈ choices w) then None
        else Some (ValueError "not a valid choice")
    | _ => None
    end.

(** The text of the floats of the runs below, which are whole numbers
    of fewer than 16 digits: the digits and ".0". *)
Definition demo_float_repr (mantissa exponent : Z) : string :=
  pretty (mantissa * 2 ^ exponent)%Z +:+ ".0".

Definition start_button (u : UUID) : FeatureSpec UUID :=
  CommandFeatureSpec "Acquisition Start" (OfVisibility Beginner) u.

(** The controller after the tree with the Read-Write Integer "Width"
    under identifier 10: address 4 is its spin box. *)
Definition showing_width : Gui :=
  snd (on_feature_specs demo_validate demo_float_repr
         [IntegerFeatureSpec "Width" (OfVisibility Beginner) RW (PyInt 640)
            (PyInt 8) (PyInt 1920) (PyInt 8) 10%N] fresh_gui).

(** ** Predicates of the further properties *)

(** The spec [s], read in the store [st], carries the node of the
    feature [f]: its identifier leads to [f] in the mapping; it has the
    interface type, the display name and, for a kind with a value, the
    access mode and the value of the node; its field [visibility] holds
    what the branch of that kind passes. *)
Definition carries (cam : Camera) (st : Store) (s : FeatureSpec Addr) (f : Feature) : Prop :=
  let node := cam (feature_node f) in
  mapping st !! read_uuid st (spec_uuid s) = Some f
  /\ interface_type s = principal_interface_type node
  /\ spec_display_name s = node_display_name node
  /\ spec_visibility s
     = (if bool_decide (principal_interface_type node = intfICategory)
        then OfAccessMode (get_access_mode node)
        else OfVisibility (node_visibility node))
  /\ spec_access_mode s
     = (if value_bearing (principal_interface_type node)
        then Some (get_access_mode node) else None)
  /\ spec_value s
     = (if value_bearing (principal_interface_type node)
        then Some (node_value node) else None).

(** The tree [s] stands for the feature [f]: it carries its node, and
    the children of a Category spec stand for the sub-features of the
    node, one by one and in order. *)
Fixpoint represents (cam : Camera) (st : Store) (s : FeatureSpec Addr) (f : Feature)
    {struct s} : Prop :=
  carries cam st s f
  /\ match s with
     | CategoryFeatureSpec _ _ children _ =>
         (fix all2 (cs : list (FeatureSpec Addr)) (fs : list Feature) : Prop :=
            match cs, fs with
            | [], [] => True
            | c :: cs', f' :: fs' => represents cam st c f' /\ all2 cs' fs'
            | _, _ => False
            end) children (feature_features f)
     | _ => True
     end.

(** The seven interface types [build_feature_spec] has a branch for. *)
Definition supported (t : EInterfaceType) : bool :=
  match t with
  | intfICategory | intfIInteger | intfICommand | intfIBoolean
  | intfIEnumeration | intfIString | intfIFloat => true
  | _ => false
  end.

(** The kinds whose branch of [build_feature_spec] reads
    [feature.value] whatever the access mode of the node. *)
Definition read_unguarded (t : EInterfaceType) : bool :=
  match t with
  | intfIBoolean | intfIEnumeration | intfIString | intfIFloat => true
  | _ => false
  end.

(** A camera all of whose nodes are one Write-Only Boolean. *)
Definition write_only_camera : Camera :=
  fun _ => mkNode "Trigger" Beginner intfIBoolean WO (PyBool false) PyNone PyNone PyNone [].

(** A computation that leaves every entry of the mapping as it is,
    however it ends. *)
Definition keeps_entries {A} (m : M A) : Prop :=
  forall st, mapping st ⊆ mapping (snd (m st)).

(** What an iteration that returns has built. *)
Definition iteration_represents (cam : Camera) (feature : Feature) : Prop :=
  never_passes cam feature = true ->
  forall spec feature_specs st o st',
    for_body cam feature (spec, feature_specs) st = (Return o, st') ->
    exists s, o = (Some s, feature_specs ++ [s]) /\ represents cam st' s feature.

(** The format of a component is one of the four colour families. *)
Definition colour_format (pfnc : Pfnc) (x : option string) : bool :=
  format_in x (rgb_formats pfnc) || format_in x (rgba_formats pfnc)
  || format_in x (bgr_formats pfnc) || format_in x (bgra_formats pfnc).

(** The format is monochrome or Bayer. *)
Definition location_format (pfnc : Pfnc) (x : option string) : bool :=
  format_in x (mono_location_formats pfnc) || format_in x (bayer_location_formats pfnc).

(** Two RGB16 pixels. *)
Definition rgb16_component : Component :=
  mkComponent 2 1 0x02300033 "RGB16" 3
    (mkArray uint16 [6] [0; 255; 256; 513; 65535; 4096]%Z).

(** The tables of [demo_pfnc] with "RGB16", of 16 bits, among the RGB
    formats. *)
Definition demo_pfnc16 : Pfnc :=
  mkPfnc (is_custom demo_pfnc)
    (fun x => match x with Some "RGB16" => Some 16%Z | _ => get_bits_per_pixel demo_pfnc x end)
    (mono_location_formats demo_pfnc) (bayer_location_formats demo_pfnc)
    ("RGB16" :: rgb_formats demo_pfnc) (rgba_formats demo_pfnc)
    (bgr_formats demo_pfnc) (bgra_formats demo_pfnc).

(** Two BGRa8 pixels and a component of a vendor's own format. *)
Definition bgra8_component : Component :=
  mkComponent 2 1 0x02200017 "BGRa8" 4 (mkArray uint8 [8] [1; 2; 3; 4; 5; 6; 7; 8]%Z).

Definition custom_component : Component :=
  mkComponent 2 1 0x80000001 "Mono8" 1 (mkArray uint8 [2] [1; 2]%Z).

(** [m] returns from every store; it keeps the keys of the widget
    mapping and leaves every identifier of [ids] among them. *)
Definition registers {A} (ids : list UUID) (m : G A) : Prop :=
  forall g,
    (exists a, fst (m g) = Return a)
    /\ gui_keys g ⊆ gui_keys (snd (m g))
    /\ forall u, u ∈ ids -> u ∈ gui_keys (snd (m g)).

(** The widget as it is inside [with widget.changed.blocked():]. *)
Definition while_blocked (w : Widget) : Widget :=
  set_changed (mkSignal (slots (changed w)) true) w.

(** The widget the constructor call of an iteration of
    [build_widgets_from_spec] makes, for a spec that is not a Category,
    before its setter is given the value of the spec. *)
Definition widget_of (spec : FeatureSpec UUID) : Widget :=
  match spec with
  | IntegerFeatureSpec display_name _ _ _ min max inc _ =>
      mkWidget SpinBox display_name PyNone [] min max inc true true None true
        "vertical" [] (mkSignal [] false) []
  | CommandFeatureSpec display_name _ _ => new_widget PushButton display_name PyNone
  | BooleanFeatureSpec display_name _ _ _ _ =>
      mkWidget ComboBox display_name PyNone [PyBool true; PyBool false] PyNone PyNone
        PyNone true true None true "vertical" [] (mkSignal [] false) []
  | EnumFeatureSpec display_name _ _ _ items _ =>
      mkWidget ComboBox display_name PyNone (map PyStr items) PyNone PyNone
        PyNone true true None true "vertical" [] (mkSignal [] false) []
  | StringFeatureSpec display_name _ _ _ _ => new_widget LineEdit display_name PyNone
  | FloatFeatureSpec display_name _ _ _ _ => new_widget LineEdit display_name PyNone
  | CategoryFeatureSpec display_name _ _ _ => new_widget Container display_name PyNone
  end.

(** What the setter of that widget says to the value of the spec when
    it checks it: the exception it raises, if any.  A [LineEdit] takes
    every value and a Command has none. *)
Definition refusal (validate : Widget -> PyValue -> option Exception)
    (spec : FeatureSpec UUID) : option Exception :=
  match spec with
  | IntegerFeatureSpec _ _ _ value _ _ _ _
  | BooleanFeatureSpec _ _ _ value _
  | EnumFeatureSpec _ _ _ value _ _ => validate (widget_of spec) value
  | _ => None
  end.

(** What the control of a spec holds when it has been made: the value
    of the spec, as text in a [LineEdit]. *)
Definition control_value (float_repr : Z -> Z -> string) (spec : FeatureSpec UUID)
  : PyValue :=
  match spec with
  | IntegerFeatureSpec _ _ _ value _ _ _ _
  | BooleanFeatureSpec _ _ _ value _
  | EnumFeatureSpec _ _ _ value _ _ => value
  | StringFeatureSpec _ _ _ value _
  | FloatFeatureSpec _ _ _ value _ => PyStr (str float_repr value)
  | _ => PyNone
  end.

(** The toolkit takes the value of every spec of the tree. *)
Fixpoint accepted (validate : Widget -> PyValue -> option Exception)
    (spec : FeatureSpec UUID) : bool :=
  match spec with
  | CategoryFeatureSpec _ _ children _ => forallb (accepted validate) children
  | _ => match refusal validate spec with None => true | Some _ => false end
  end.

(** An Enumeration whose value is not among its entries. *)
Definition stray_enum : FeatureSpec UUID :=
  EnumFeatureSpec "Pixel Format" (OfVisibility Beginner) RW (PyStr "Mono12")
    ["Mono8"; "Mono16"] 10%N.

(** The lines of an iteration that follow the chain of branches. *)
Definition after_widget (cb_visibility widgets : WidgetId) (spec : FeatureSpec UUID)
    (widget : WidgetId) : G unit :=
  _ <- (if bool_decide (spec_access_mode spec = Some RO)
        then modify widget (set_enabled false) else ret tt) ;;
  w <- get_widget widget ;;
  _ <- (if bool_decide (widget_class w <> Container)
        then
          _ <- connect cb_visibility (check_widget_visibility widget (spec_visibility spec)) 0 ;;
          connect widget (on_value_changed widget (spec_uuid spec)) 0
        else ret tt) ;;
  _ <- modify widgets (fun w => set_contents (contents w ++ [widget]) w) ;;
  widget_mapping_setitem (spec_uuid spec) widget.

(** [each.visible_override], [None] when the widget has no such
    attribute. *)
Definition override_of (g : Gui) (each : WidgetId) : option bool :=
  visible_override (default (new_widget Label "" PyNone) (widget_objects g !! each)).

(** Some widget of [con] other than [label] has [visible_override]
    set to [True]. *)
Definition some_shown (g : Gui) (label : WidgetId) (con : list WidgetId) : bool :=
  existsb (fun each => bool_decide (each <> label)
                       && bool_decide (override_of g each = Some true)) con.

(** The controller after a tree with the category "Outer" holding the
    category "Inner" holding the Integer "Width": address 4 is the
    container of "Outer" and 8 its label, 5 the container of "Inner"
    and 7 its label, 6 the spin box. *)
Definition showing_nested : Gui :=
  snd (on_feature_specs demo_validate demo_float_repr
         [CategoryFeatureSpec "Outer" (OfAccessMode RO)
            [CategoryFeatureSpec "Inner" (OfAccessMode RO)
               [IntegerFeatureSpec "Width" (OfVisibility Beginner) RW (PyInt 640)
                  (PyInt 8) (PyInt 1920) (PyInt 8) 10%N] 11%N] 12%N]
         fresh_gui).

(** The same after the level "Expert" has reached the spin box. *)
Definition showing_nested_expert : Gui :=
  snd (call_slot (check_widget_visibility 6 (OfVisibility Beginner)) (PyStr "Expert")
         showing_nested).

(** The containers of "Inner" and of "Outer" in that controller. *)
Definition inner_container : Widget :=
  default (new_widget Label "" PyNone) (widget_objects showing_nested_expert !! 5).

Definition outer_container : Widget :=
  default (new_widget Label "" PyNone) (widget_objects showing_nested_expert !! 4).

(** Whether a widget is shown, [None] when there is no such widget. *)
Definition shown (g : Gui) (widget : WidgetId) : option bool :=
  visible <$> widget_objects g !! widget.

(** The controller after the level [level] was selected, as far as the
    spin box of "Width" (widget 6, visibility [Beginner]) goes. *)
Definition width_at_level (level : string) : Gui :=
  snd (call_slot (check_widget_visibility 6 (OfVisibility Beginner)) (PyStr level)
         showing_nested).

(** * Properties *)

(** ** Steps of the builder that return *)

Lemma bind_Return {S A B} (m : StateExc S A) (k : A -> StateExc S B) st b st' :
  bind m k st = (Return b, st') ->
  exists a st1, m st = (Return a, st1) /\ k a st1 = (Return b, st').
Proof.
  unfold bind. destruct (m st) as [[a|e|] st1]; intros H; try discriminate H.
  exists a, st1. split; [reflexivity|exact H].
Qed.

Lemma construct_Return mk st s st' :
  construct mk st = (Return s, st') ->
  exists u,
    s = mk (length (spec_uuids st))
    /\ spec_uuids st' = spec_uuids st ++ [u]
    /\ mapping st' = mapping st.
Proof.
  unfold construct, bind, uuid4.
  destruct (uuid4_draws st) as [|u rest]; intros H; [discriminate H|].
  cbn in H. injection H as <- <-. exists u. repeat split.
Qed.

(** The loop ends only on an identifier that is not in the mapping; it
    reassigns the attribute of the one object it is given. *)
Lemma regenerate_Return a draws st st' :
  a < length (spec_uuids st) ->
  regenerate a draws st = (Return tt, st') ->
  exists u,
    spec_uuids st' = <[a := u]> (spec_uuids st)
    /\ mapping st' = mapping st
    /\ mapping st !! u = None
    /\ read_uuid st' a = u.
Proof.
  revert st. induction draws as [|d draws IH]; intros st Ha; cbn [regenerate].
  - destruct (mapping st !! read_uuid st a) eqn:Hin; intros H; [discriminate H|].
    injection H as <-. exists (read_uuid st a). repeat split; [|exact Hin].
    unfold read_uuid. destruct (lookup_lt_is_Some_2 _ _ Ha) as [u Hu].
    rewrite Hu. cbn. symmetry. apply list_insert_id. exact Hu.
  - destruct (mapping st !! read_uuid st a) eqn:Hin; intros H.
    + apply IH in H; [|cbn; rewrite length_insert; exact Ha].
      destruct H as (u & Hheap & Hmap & Hfresh & Hread). cbn in Hheap, Hmap, Hfresh.
      exists u. rewrite list_insert_insert_eq in Hheap. auto.
    + injection H as <-. exists (read_uuid st a). repeat split; [|exact Hin].
      unfold read_uuid. destruct (lookup_lt_is_Some_2 _ _ Ha) as [u Hu].
      rewrite Hu. cbn. symmetry. apply list_insert_id. exact Hu.
Qed.

Lemma loop_tail_Return feature s feature_specs st o st' :
  spec_uuid s < length (spec_uuids st) ->
  loop_tail feature (Some s) feature_specs st = (Return o, st') ->
  exists u,
    o = (Some s, feature_specs ++ [s])
    /\ spec_uuids st' = <[spec_uuid s := u]> (spec_uuids st)
    /\ mapping st !! u = None
    /\ mapping st' = <[u := feature]> (mapping st).
Proof.
  intros Ha H. cbn [loop_tail] in H.
  apply bind_Return in H as ([] & st1 & Hloop & H).
  apply (regenerate_Return _ _ _ _ Ha) in Hloop as (u & Hheap & Hmap & Hfresh & Hread).
  cbn in H. injection H as <- <-.
  exists u. rewrite Hread, Hmap. auto.
Qed.

(** A read of [feature.value] that returns has given the value of a
    readable node and changed nothing. *)
Lemma get_value_Return {S} (n : Node) (st : S) v st' :
  get_value n st = (Return v, st') ->
  v = node_value n /\ st' = st /\ is_readable n = true.
Proof.
  unfold get_value. destruct (is_readable n); [|discriminate].
  intros [= <- <-]. auto.
Qed.

(** The read that precedes a constructor call, when there is one. *)
Ltac strip_read H :=
  try (let v := fresh "v" in
       let st0 := fresh "st" in
       let Hread := fresh "Hread" in
       let Hreadable := fresh "Hreadable" in
       apply bind_Return in H as (v & st0 & Hread & H);
       apply get_value_Return in Hread as (-> & -> & Hreadable)).

(** A constructor call followed by the tail of the loop body: the new
    object is appended under an identifier that was not in the mapping,
    and the mapping gets that one entry. *)
Lemma construct_then_tail mk feature feature_specs st s st1 o st' :
  construct mk st = (Return s, st1) ->
  loop_tail feature (Some s) feature_specs st1 = (Return o, st') ->
  (forall a, spec_uuid (mk a) = a) ->
  exists u,
    s = mk (length (spec_uuids st))
    /\ o = (Some s, feature_specs ++ [s])
    /\ spec_uuids st' = spec_uuids st ++ [u]
    /\ mapping st !! u = None
    /\ mapping st' = <[u := feature]> (mapping st).
Proof.
  intros Hnew H Hself.
  apply construct_Return in Hnew as (u0 & -> & Hheap & Hmap).
  apply loop_tail_Return in H as (u & -> & Hheap' & Hfresh & Hmap');
    [|rewrite Hself, Hheap, length_app; cbn; lia].
  exists u. rewrite Hself in Hheap'. rewrite Hheap in Hheap'. rewrite Hmap in *.
  repeat split; try assumption.
  rewrite Hheap'. replace (length (spec_uuids st)) with (length (spec_uuids st) + 0) by lia.
  rewrite insert_app_r. reflexivity.
Qed.

(** ** Collections on which the [pass] branch is never taken

    When no Integer that the traversal reaches is Not-Available, every
    iteration constructs a new object, and a call that returns has
    given every object of its tree an identifier of its own that was
    not in the mapping before. *)

Lemma Feature_ind (P : Feature -> Prop) :
  (forall n sub_features, Forall P sub_features -> P (mkFeature n sub_features)) ->
  forall feature, P feature.
Proof.
  intros step. fix IH 1. intros [n sub_features]. apply step.
  induction sub_features as [|f fs IHfs]; constructor; [apply IH|exact IHfs].
Qed.

Lemma created_nil st : created st st [] [].
Proof.
  unfold created. rewrite app_nil_r. cbn. repeat split; try constructor.
  - intros u Hu. inversion Hu.
  - set_solver.
Qed.

Lemma created_one st st' u feature :
  spec_uuids st' = spec_uuids st ++ [u] ->
  mapping st !! u = None ->
  mapping st' = <[u := feature]> (mapping st) ->
  created st st' [length (spec_uuids st)] [u].
Proof.
  intros Hheap Hfresh Hmap. unfold created. rewrite Hheap, Hmap. cbn.
  repeat split; try reflexivity.
  - apply NoDup_singleton.
  - intros v Hv. apply list_elem_of_singleton in Hv as ->. exact Hfresh.
  - rewrite dom_insert_L. set_solver.
Qed.

Lemma created_app st st1 st2 addrs1 us1 addrs2 us2 :
  created st st1 addrs1 us1 -> created st1 st2 addrs2 us2 ->
  created st st2 (addrs1 ++ addrs2) (us1 ++ us2).
Proof.
  intros (Hheap1 & Haddrs1 & Hnodup1 & Hfresh1 & Hdom1)
         (Hheap2 & Haddrs2 & Hnodup2 & Hfresh2 & Hdom2).
  assert (Hold : forall u, u ∈ us2 -> (u ∉ dom (mapping st)) /\ (u ∉ us1)).
  { intros u Hu. apply Hfresh2, not_elem_of_dom in Hu. rewrite Hdom1 in Hu.
    set_solver. }
  unfold created. repeat split.
  - rewrite Hheap2, Hheap1, app_assoc. reflexivity.
  - rewrite length_app, seq_app, Haddrs1, Haddrs2, Hheap1, length_app. reflexivity.
  - apply NoDup_app. repeat split; try assumption.
    intros u Hu1 Hu2. apply Hold in Hu2 as [_ Hu2]. contradiction.
  - intros u Hu. apply elem_of_app in Hu as [Hu|Hu]; [apply Hfresh1, Hu|].
    apply not_elem_of_dom, Hold, Hu.
  - rewrite Hdom2, Hdom1, list_to_set_app_L. set_solver.
Qed.

Lemma created_perm st st' addrs addrs' us :
  addrs' ≡ₚ addrs -> created st st' addrs us -> created st st' addrs' us.
Proof.
  intros Hperm (Hheap & Haddrs & Hrest). unfold created.
  split; [exact Hheap|]. split; [rewrite Hperm; exact Haddrs|exact Hrest].
Qed.

Section NeverPasses.
Variable cam : Camera.

Lemma for_body_category n sub_features spec feature_specs :
  principal_interface_type (cam n) = intfICategory ->
  for_body cam (mkFeature n sub_features) (spec, feature_specs)
  = (spec <- (children <- build_feature_spec cam sub_features ;;
              spec <- construct (CategoryFeatureSpec (node_display_name (cam n))
                                   (OfAccessMode (get_access_mode (cam n))) children) ;;
              ret (Some spec)) ;;
     loop_tail (mkFeature n sub_features) spec feature_specs).
Proof. intros Hkind. cbn [for_body]. rewrite Hkind. reflexivity. Qed.

Lemma for_loop_creates features :
  Forall (iteration_creates cam) features ->
  forallb (never_passes cam) features = true ->
  forall spec feature_specs st out st',
    for_loop cam features (spec, feature_specs) st = (Return out, st') ->
    exists new us,
      out = feature_specs ++ new /\ created st st' (flat_map tree_uuids new) us.
Proof.
  induction 1 as [|feature rest Hfeature _ IH]; intros Hclean spec feature_specs st out st' H.
  - cbn in H. injection H as <- <-. exists [], []. rewrite app_nil_r.
    split; [reflexivity|apply created_nil].
  - cbn [forallb] in Hclean. apply andb_true_iff in Hclean as [Hclean Hrest].
    cbn [for_loop] in H. apply bind_Return in H as ([spec1 specs1] & st1 & Hbody & H).
    apply (Hfeature Hclean) in Hbody as (s & us1 & [= -> ->] & Hcreated1).
    apply (IH Hrest) in H as (new & us2 & -> & Hcreated2).
    exists (s :: new), (us1 ++ us2). split.
    + rewrite <- app_assoc. reflexivity.
    + apply (created_app _ _ _ _ _ _ _ Hcreated1 Hcreated2).
Qed.

(** A branch that constructs a spec without children. *)
Ltac leaf_branch H :=
  let spec1 := fresh "spec" in
  let s := fresh "s" in
  let st1 := fresh "st" in
  let st2 := fresh "st" in
  let Hspec := fresh "Hspec" in
  let Hnew := fresh "Hnew" in
  let u := fresh "u" in
  let Hheap := fresh "Hheap" in
  let Hfresh := fresh "Hfresh" in
  let Hmap := fresh "Hmap" in
  apply bind_Return in H as (spec1 & st2 & Hspec & H);
  strip_read Hspec;
  apply bind_Return in Hspec as (s & st1 & Hnew & [= <- <-]);
  destruct (construct_then_tail _ _ _ _ _ _ _ _ Hnew H (fun a => eq_refl))
    as (u & -> & -> & Hheap & Hfresh & Hmap);
  eexists _, [u]; (split; [reflexivity|]);
  apply (created_one _ _ _ _ Hheap Hfresh Hmap).

Lemma for_body_creates feature : iteration_creates cam feature.
Proof.
  induction feature as [n sub_features IH] using Feature_ind.
  intros Hclean spec feature_specs st o st' H.
  cbn [never_passes] in Hclean. apply andb_true_iff in Hclean as [Hpass Hsub].
  unfold takes_pass in Hpass.
  destruct (principal_interface_type (cam n)) eqn:Hkind;
    try (cbn [for_body] in H; rewrite Hkind in H; discriminate H).
  - (* Integer *)
    cbn [for_body] in H. rewrite Hkind in H.
    destruct (get_access_mode (cam n)) eqn:Hmode; try discriminate H;
      try (cbn in Hpass; discriminate Hpass); leaf_branch H.
  - (* Boolean *) cbn [for_body] in H. rewrite Hkind in H. leaf_branch H.
  - (* Command *) cbn [for_body] in H. rewrite Hkind in H. leaf_branch H.
  - (* Float *) cbn [for_body] in H. rewrite Hkind in H. leaf_branch H.
  - (* String *) cbn [for_body] in H. rewrite Hkind in H. leaf_branch H.
  - (* Category *)
    rewrite for_body_category in H by exact Hkind.
    rewrite bool_decide_eq_true_2 in Hsub by reflexivity.
    apply bind_Return in H as (spec1 & st3 & Hspec & H).
    apply bind_Return in Hspec as (children & st1 & Hchildren & Hspec).
    apply bind_Return in Hspec as (s & st2 & Hnew & [= <- <-]).
    apply (for_loop_creates _ IH Hsub) in Hchildren as (new & us & Hnew' & Hcreated).
    cbn [app] in Hnew'. subst children.
    destruct (construct_then_tail _ _ _ _ _ _ _ _ Hnew H (fun a => eq_refl))
      as (u & -> & -> & Hheap & Hfresh & Hmap).
    eexists _, (us ++ [u]). split; [reflexivity|].
    cbn [tree_uuids spec_uuid app].
    apply (created_perm _ _ (flat_map tree_uuids new ++ [length (spec_uuids st1)])).
    { apply Permutation_cons_append. }
    apply (created_app _ _ _ _ _ _ _ Hcreated).
    apply (created_one _ _ _ _ Hheap Hfresh Hmap).
  - (* Enumeration *) cbn [for_body] in H. rewrite Hkind in H. leaf_branch H.
Qed.
End NeverPasses.

Lemma FeatureSpec_ind {I} (P : FeatureSpec I -> Prop) :
  (forall d v a x mn mx ic u, P (IntegerFeatureSpec d v a x mn mx ic u)) ->
  (forall d v u, P (CommandFeatureSpec d v u)) ->
  (forall d v a x u, P (BooleanFeatureSpec d v a x u)) ->
  (forall d v a x it u, P (EnumFeatureSpec d v a x it u)) ->
  (forall d v a x u, P (StringFeatureSpec d v a x u)) ->
  (forall d v a x u, P (FloatFeatureSpec d v a x u)) ->
  (forall d v c u, Forall P c -> P (CategoryFeatureSpec d v c u)) ->
  forall s, P s.
Proof.
  intros Hint Hcmd Hbool Henum Hstr Hfloat Hcat. fix IH 1. intros [].
  - apply Hint.
  - apply Hcmd.
  - apply Hbool.
  - apply Henum.
  - apply Hstr.
  - apply Hfloat.
  - apply Hcat. induction children as [|c cs IHcs]; constructor; [apply IH|exact IHcs].
Qed.

Lemma tree_uuids_spec_map {I J} (f : I -> J) (s : FeatureSpec I) :
  tree_uuids (spec_map f s) = map f (tree_uuids s).
Proof.
  induction s as [| | | | | |d v c u IH] using FeatureSpec_ind; try reflexivity.
  cbn [spec_map tree_uuids spec_uuid map]. f_equal.
  induction IH as [|s c Hs _ IHc]; [reflexivity|].
  cbn [map flat_map]. rewrite map_app, Hs, IHc. reflexivity.
Qed.

Lemma identifiers_read st specs :
  identifiers st specs = map (read_uuid st) (flat_map tree_uuids specs).
Proof.
  unfold identifiers, read_specs.
  induction specs as [|s specs IH]; [reflexivity|].
  cbn [map flat_map]. rewrite map_app, tree_uuids_spec_map, IH. reflexivity.
Qed.

Lemma read_appended (heap us : list UUID) :
  map (fun a => default 0%N ((heap ++ us) !! a)) (seq (length heap) (length us)) = us.
Proof.
  revert heap. induction us as [|u us IH]; intros heap; [reflexivity|].
  cbn [length seq map]. f_equal.
  - rewrite lookup_app_r, Nat.sub_diag by lia. reflexivity.
  - specialize (IH (heap ++ [u])). rewrite <- app_assoc, length_app in IH.
    cbn in IH. rewrite Nat.add_1_r in IH. exact IH.
Qed.

(** The identifiers of the objects a step created are the ones it was
    given credit for. *)
Lemma created_identifiers st st' specs us :
  created st st' (flat_map tree_uuids specs) us -> identifiers st' specs ≡ₚ us.
Proof.
  intros (Hheap & Haddrs & _). rewrite identifiers_read, Haddrs.
  unfold read_uuid. rewrite Hheap, read_appended. reflexivity.
Qed.

(** When the traversal reaches no Not-Available Integer, a call of
    [build_feature_spec] that returns has produced a tree without a
    repeated identifier; none of its identifiers was in the mapping
    before, and the keys of the mapping afterwards are the earlier keys
    and these identifiers. *)
Theorem build_feature_spec_identifiers cam features st specs st' :
  forallb (never_passes cam) features = true ->
  build_feature_spec cam features st = (Return specs, st') ->
  NoDup (identifiers st' specs)
  /\ (forall u, u ∈ identifiers st' specs -> mapping st !! u = None)
  /\ dom (mapping st') = dom (mapping st) ∪ list_to_set (identifiers st' specs).
Proof.
  intros Hclean H. unfold build_feature_spec in H.
  apply for_loop_creates in H as (new & us & Hnew & Hcreated);
    [|apply Forall_forall; intros feature _; apply for_body_creates|exact Hclean].
  cbn [app] in Hnew. subst new.
  pose proof (created_identifiers _ _ _ _ Hcreated) as Hperm.
  destruct Hcreated as (_ & _ & Hnodup & Hfresh & Hdom).
  split; [rewrite Hperm; exact Hnodup|].
  split; [intros u Hu; apply Hfresh; rewrite <- Hperm; exact Hu|].
  rewrite Hdom. f_equal. apply set_eq. intros u.
  rewrite !elem_of_list_to_set, Hperm. reflexivity.
Qed.

Example build_feature_spec_identifiers_demo :
  NoDup (identifiers
           (snd (build_feature_spec demo_camera [image_format; acquisition_start] fresh_store))
           [CategoryFeatureSpec "Image Format" (OfAccessMode RO)
              [IntegerFeatureSpec "Width" (OfVisibility Beginner) RW (PyInt 640)
                 (PyInt 8) (PyInt 1920) (PyInt 8) 0] 1;
            CommandFeatureSpec "Acquisition Start" (OfVisibility Beginner) 2]).
Proof.
  apply (build_feature_spec_identifiers demo_camera [image_format; acquisition_start]
           fresh_store); reflexivity.
Qed.

(** A collision: [uuid4()] returns 10 twice.  The second spec is
    first given 10, which is in the mapping by then, and the loop
    replaces it by the next draw, 11. *)
Example collision_is_regenerated :
  exists specs st,
    build_feature_spec demo_camera [acquisition_start; width_feature]
      (mkStore [10; 10; 11]%N [] ∅) = (Return specs, st)
    /\ identifiers st specs = [10; 11]%N
    /\ uuid4_draws st = [].
Proof. eexists _, _. repeat split. Qed.

(** ** What the spec of a node carries

    For a node on which the [pass] branch is not taken, the spec an
    iteration has produced carries the node's display name, interface
    type, access mode and value as read; its field [visibility] holds
    the node's visibility, except for a Category, where it holds the
    node's access mode. *)

(** A branch that constructs a spec without children. *)
Ltac leaf_fields H :=
  let spec1 := fresh "spec" in
  let s1 := fresh "s" in
  let st1 := fresh "st" in
  let st2 := fresh "st" in
  let Hspec := fresh "Hspec" in
  let Hnew := fresh "Hnew" in
  let u := fresh "u" in
  apply bind_Return in H as (spec1 & st2 & Hspec & H);
  strip_read Hspec;
  apply bind_Return in Hspec as (s1 & st1 & Hnew & [= <- <-]);
  destruct (construct_then_tail _ _ _ _ _ _ _ _ Hnew H (fun a => eq_refl))
    as (u & -> & [= -> _] & _);
  repeat split.

Lemma for_body_fields cam n sub_features spec feature_specs st s feature_specs' st' :
  takes_pass cam n = false ->
  for_body cam (mkFeature n sub_features) (spec, feature_specs) st
  = (Return (Some s, feature_specs'), st') ->
  interface_type s = principal_interface_type (cam n)
  /\ spec_display_name s = node_display_name (cam n)
  /\ spec_visibility s
     = (if bool_decide (principal_interface_type (cam n) = intfICategory)
        then OfAccessMode (get_access_mode (cam n))
        else OfVisibility (node_visibility (cam n)))
  /\ spec_access_mode s
     = (if value_bearing (principal_interface_type (cam n))
        then Some (get_access_mode (cam n)) else None)
  /\ spec_value s
     = (if value_bearing (principal_interface_type (cam n))
        then Some (node_value (cam n)) else None).
Proof.
  intros Hpass H. unfold takes_pass in Hpass.
  destruct (principal_interface_type (cam n)) eqn:Hkind;
    try (cbn [for_body] in H; rewrite Hkind in H; discriminate H).
  - (* Integer *)
    cbn [for_body] in H. rewrite Hkind in H.
    destruct (get_access_mode (cam n)) eqn:Hmode; try discriminate H;
      try (cbn in Hpass; discriminate Hpass); leaf_fields H.
  - (* Boolean *) cbn [for_body] in H. rewrite Hkind in H. leaf_fields H.
  - (* Command *) cbn [for_body] in H. rewrite Hkind in H. leaf_fields H.
  - (* Float *) cbn [for_body] in H. rewrite Hkind in H. leaf_fields H.
  - (* String *) cbn [for_body] in H. rewrite Hkind in H. leaf_fields H.
  - (* Category *)
    rewrite for_body_category in H by exact Hkind.
    apply bind_Return in H as (spec1 & st3 & Hspec & H).
    apply bind_Return in Hspec as (children & st1 & _ & Hspec).
    apply bind_Return in Hspec as (s1 & st2 & Hnew & [= <- <-]).
    destruct (construct_then_tail _ _ _ _ _ _ _ _ Hnew H (fun a => eq_refl))
      as (u & -> & [= -> _] & _).
    repeat split.
  - (* Enumeration *) cbn [for_body] in H. rewrite Hkind in H. leaf_fields H.
Qed.

(** ** The dicts bound to the default arguments only grow *)

Section KeepsKeys.
Context {S : Type} (keys : S -> gset UUID).

Lemma keeps_keys_bind {A B} (m : StateExc S A) (k : A -> StateExc S B) :
  keeps_keys keys m -> (forall a, keeps_keys keys (k a)) -> keeps_keys keys (bind m k).
Proof.
  intros Hm Hk st. unfold bind. specialize (Hm st).
  destruct (m st) as [[a|e|] st1]; cbn [snd] in *; [|exact Hm|exact Hm].
  etransitivity; [exact Hm|apply Hk].
Qed.

Lemma keeps_keys_ret {A} (a : A) : keeps_keys keys (ret a).
Proof. intros st. reflexivity. Qed.

Lemma keeps_keys_raise {A} (e : Exception) : keeps_keys keys (@raise S A e).
Proof. intros st. reflexivity. Qed.

Lemma keeps_keys_get_value n : keeps_keys keys (get_value n).
Proof. intros st. unfold get_value. destruct (is_readable n); reflexivity. Qed.
End KeepsKeys.

Lemma keeps_keys_construct mk : keeps_keys store_keys (construct mk).
Proof.
  intros st. unfold construct, bind, uuid4.
  destruct (uuid4_draws st); reflexivity.
Qed.

Lemma keeps_keys_regenerate a draws st :
  store_keys st ⊆ store_keys (snd (regenerate a draws st)).
Proof.
  revert st. induction draws as [|u draws IH]; intros st; cbn [regenerate];
    destruct (mapping st !! read_uuid st a); try reflexivity.
  etransitivity; [|apply IH]. reflexivity.
Qed.

Lemma keeps_keys_loop_tail feature spec feature_specs :
  keeps_keys store_keys (loop_tail feature spec feature_specs).
Proof.
  destruct spec as [s|]; [|apply keeps_keys_raise]. cbn [loop_tail].
  apply keeps_keys_bind; [intros st; apply keeps_keys_regenerate|]. intros _.
  apply keeps_keys_bind; [intros st; reflexivity|]. intros k.
  apply keeps_keys_bind; [|intros _; apply keeps_keys_ret].
  intros st. unfold store_keys. cbn. rewrite dom_insert_L. set_solver.
Qed.

Lemma keeps_keys_for_loop cam features :
  Forall (fun feature => forall locals, keeps_keys store_keys (for_body cam feature locals))
    features ->
  forall locals, keeps_keys store_keys (for_loop cam features locals).
Proof.
  induction 1 as [|feature rest Hfeature _ IH]; intros locals; cbn [for_loop].
  - apply keeps_keys_ret.
  - apply keeps_keys_bind; [apply Hfeature|apply IH].
Qed.

(** A branch that reads the value, if it has one, and constructs. *)
Ltac keeps_keys_branch :=
  try (apply keeps_keys_bind; [apply keeps_keys_get_value|intros ?]);
  apply keeps_keys_bind; [apply keeps_keys_construct|intros; apply keeps_keys_ret].

Lemma keeps_keys_for_body cam feature locals :
  keeps_keys store_keys (for_body cam feature locals).
Proof.
  revert locals. induction feature as [n sub_features IH] using Feature_ind.
  intros [spec feature_specs].
  destruct (principal_interface_type (cam n)) eqn:Hkind;
    try (cbn [for_body]; rewrite Hkind;
         apply keeps_keys_bind; [apply keeps_keys_raise|intros; apply keeps_keys_loop_tail]);
    try (cbn [for_body]; rewrite Hkind;
         apply keeps_keys_bind; [|intros; apply keeps_keys_loop_tail];
         keeps_keys_branch).
  - (* Integer *)
    cbn [for_body]. rewrite Hkind.
    apply keeps_keys_bind; [|intros; apply keeps_keys_loop_tail].
    destruct (get_access_mode (cam n));
      try apply keeps_keys_raise; try apply keeps_keys_ret; keeps_keys_branch.
  - (* Category *)
    rewrite for_body_category by exact Hkind.
    apply keeps_keys_bind; [|intros; apply keeps_keys_loop_tail].
    apply keeps_keys_bind; [apply keeps_keys_for_loop, IH|]. intros children.
    apply keeps_keys_bind; [apply keeps_keys_construct|intros; apply keeps_keys_ret].
Qed.

(** Whatever the features and however the call ends, every key the
    dict [mapping] held before a call of [build_feature_spec] is in it
    afterwards. *)
Theorem build_feature_spec_keeps_keys cam features st :
  dom (mapping st) ⊆ dom (mapping (snd (build_feature_spec cam features st))).
Proof.
  apply (keeps_keys_for_loop cam features).
  apply Forall_forall. intros feature _ locals. apply keeps_keys_for_body.
Qed.

Lemma keeps_keys_create w : keeps_keys gui_keys (create w).
Proof. intros g. reflexivity. Qed.

Lemma keeps_keys_get_widget i : keeps_keys gui_keys (get_widget i).
Proof. intros g. reflexivity. Qed.

Lemma keeps_keys_modify i f : keeps_keys gui_keys (modify i f).
Proof. intros g. reflexivity. Qed.

Lemma keeps_keys_connect i s p : keeps_keys gui_keys (connect i s p).
Proof. apply keeps_keys_modify. Qed.

Lemma keeps_keys_setitem k i : keeps_keys gui_keys (widget_mapping_setitem k i).
Proof. intros g. unfold gui_keys. cbn. rewrite dom_insert_L. set_solver. Qed.

Lemma keeps_keys_new_container cb_visibility :
  keeps_keys gui_keys (new_container cb_visibility).
Proof.
  unfold new_container.
  apply keeps_keys_bind; [apply keeps_keys_create|]. intros widgets.
  destruct cb_visibility as [cb|];
    repeat first
      [ apply keeps_keys_ret | apply keeps_keys_create | apply keeps_keys_modify
      | apply keeps_keys_bind; [|intros ?] ].
Qed.

Section ControllerKeys.
Variable validate : Widget -> PyValue -> option Exception.
Variable float_repr : Z -> Z -> string.

Lemma keeps_keys_new_value_widget w v :
  keeps_keys gui_keys (new_value_widget validate float_repr w v).
Proof.
  unfold new_value_widget. destruct (value_setter _ _ _ _);
    [apply keeps_keys_raise|apply keeps_keys_create].
Qed.

Lemma keeps_keys_for_specs cb_visibility widgets specs :
  Forall (fun spec => forall cb w,
            keeps_keys gui_keys (for_spec validate float_repr cb w spec)) specs ->
  keeps_keys gui_keys (for_specs validate float_repr cb_visibility widgets specs).
Proof.
  induction 1 as [|spec rest Hspec _ IH]; cbn [for_specs].
  - apply keeps_keys_ret.
  - apply keeps_keys_bind; [apply Hspec|intros _; apply IH].
Qed.

Lemma for_spec_category cb_visibility widgets display_name v children u :
  for_spec validate float_repr cb_visibility widgets
    (CategoryFeatureSpec display_name v children u)
  = (widget <- (p <- new_container (Some cb_visibility) ;;
                _ <- for_specs validate float_repr (snd p) (fst p) children ;;
                category_label <- create (new_widget Label display_name PyNone) ;;
                _ <- modify (fst p) (fun w => set_contents (category_label :: contents w) w) ;;
                _ <- connect cb_visibility
                       (check_container_visibility (fst p) category_label) (-1) ;;
                ret (fst p)) ;;
     _ <- (if bool_decide (@None EAccessMode = Some RO)
           then modify widget (set_enabled false) else ret tt) ;;
     w <- get_widget widget ;;
     _ <- (if bool_decide (widget_class w <> Container)
           then
             _ <- connect cb_visibility (check_widget_visibility widget v) 0 ;;
             connect widget (on_value_changed widget u) 0
           else ret tt) ;;
     _ <- modify widgets (fun w => set_contents (contents w ++ [widget]) w) ;;
     widget_mapping_setitem u widget).
Proof. reflexivity. Qed.

Ltac keeps_keys_steps :=
  repeat first
    [ apply keeps_keys_ret | apply keeps_keys_create | apply keeps_keys_modify
    | apply keeps_keys_connect | apply keeps_keys_get_widget | apply keeps_keys_setitem
    | apply keeps_keys_new_container | apply keeps_keys_new_value_widget
    | match goal with |- keeps_keys _ (if ?b then _ else _) => destruct b end
    | apply keeps_keys_bind; [|intros ?] ].

Lemma keeps_keys_for_spec cb_visibility widgets spec :
  keeps_keys gui_keys (for_spec validate float_repr cb_visibility widgets spec).
Proof.
  revert cb_visibility widgets.
  induction spec as [| | | | | |d v c u IH] using FeatureSpec_ind; intros cb widgets;
    [cbn [for_spec]; keeps_keys_steps ..|].
  rewrite for_spec_category.
  apply keeps_keys_bind; [|intros ?; keeps_keys_steps].
  apply keeps_keys_bind; [apply keeps_keys_new_container|]. intros p.
  apply keeps_keys_bind; [apply keeps_keys_for_specs, IH|]. intros _.
  keeps_keys_steps.
Qed.

(** Whatever the tree and however the call ends, every identifier the
    dict of [build_widgets_from_spec] held before [on_feature_specs] is
    in it afterwards. *)
Theorem on_feature_specs_keeps_keys specs g :
  dom (widget_mapping g)
  ⊆ dom (widget_mapping (snd (on_feature_specs validate float_repr specs g))).
Proof.
  apply (keeps_keys_bind gui_keys); [|intros widgets g'; reflexivity].
  unfold build_widgets_from_spec.
  apply keeps_keys_bind; [apply keeps_keys_new_container|]. intros p.
  apply keeps_keys_bind; [|intros _; apply keeps_keys_ret].
  apply keeps_keys_for_specs, Forall_forall. intros spec _ cb w.
  apply keeps_keys_for_spec.
Qed.
End ControllerKeys.

(** ** C10: a Not-Available Integer in first position *)

Lemma for_body_not_available cam n sub locals st :
  principal_interface_type (cam n) = intfIInteger ->
  get_access_mode (cam n) = NA ->
  fst locals = None ->
  for_body cam (mkFeature n sub) locals st = (Raise (UnboundLocalError "spec"), st).
Proof.
  intros Hkind Hmode Hspec. destruct locals as [spec feature_specs].
  simpl in Hspec. subst spec.
  cbn [for_body]. rewrite Hkind, Hmode. reflexivity.
Qed.

(** C10. For every feature collection whose first element is an Integer
    feature whose access mode is Not-Available, and for every store the
    call starts in (so also for an empty accumulating mapping),
    [build_feature_spec] does not return: it raises
    [UnboundLocalError] for the local variable [spec], which is a
    [NameError], and leaves the store as it found it. *)
Theorem build_feature_spec_first_not_available
    (cam : Camera) (feature : Feature) (rest : list Feature) (st : Store) :
  principal_interface_type (cam (feature_node feature)) = intfIInteger ->
  get_access_mode (cam (feature_node feature)) = NA ->
  exists e,
    build_feature_spec cam (feature :: rest) st = (Raise e, st)
    /\ e = UnboundLocalError "spec" /\ is_NameError e = true.
Proof.
  intros Hkind Hmode. exists (UnboundLocalError "spec").
  split; [|split; reflexivity].
  destruct feature as [n sub]. simpl in Hkind, Hmode.
  unfold build_feature_spec. cbn [for_loop]. unfold bind.
  rewrite (for_body_not_available cam n sub (None, []) st Hkind Hmode eq_refl).
  reflexivity.
Qed.

Lemma build_feature_spec_first_not_available_witness :
  principal_interface_type (demo_camera (feature_node timestamp)) = intfIInteger
  /\ get_access_mode (demo_camera (feature_node timestamp)) = NA
  /\ exists e,
       build_feature_spec demo_camera [timestamp; acquisition_start] fresh_store
       = (Raise e, fresh_store)
       /\ e = UnboundLocalError "spec" /\ is_NameError e = true.
Proof.
  split; [reflexivity|]. split; [reflexivity|].
  apply (build_feature_spec_first_not_available demo_camera timestamp
           [acquisition_start] fresh_store); reflexivity.
Defined.

(** Nothing in the unit handles the exception: [send_ctrl] ends with
    it. *)
Lemma send_ctrl_first_not_available (w : World) acquirer feature rest :
  ia w = Some acquirer ->
  root_features acquirer = feature :: rest ->
  principal_interface_type (camera w (feature_node feature)) = intfIInteger ->
  get_access_mode (camera w (feature_node feature)) = NA ->
  send_ctrl w = (Raise (UnboundLocalError "spec"), w).
Proof.
  intros Hia Hroot Hkind Hmode. unfold send_ctrl, rebuild. rewrite Hia, Hroot.
  destruct feature as [n sub]. cbn [feature_node] in Hkind, Hmode.
  unfold build_feature_spec. cbn [for_loop]. unfold bind at 1.
  rewrite (for_body_not_available _ n sub (None, []) _ Hkind Hmode eq_refl).
  destruct w; cbn in *. rewrite Hia. reflexivity.
Qed.

(** ** C1: what a Category spec stores as its visibility *)

(** C1 (evaluation at the failing input). The camera's Category node
    "Image Format" has visibility Beginner and access mode Read-Only.
    The spec built for it carries the display name as read, but its
    field [visibility] holds the access mode [RO], not the visibility
    [Beginner] of the node; the Integer child carries display name,
    visibility, access mode and value as read. *)
Theorem category_spec_visibility_holds_access_mode :
  node_visibility (demo_camera 2) = Beginner
  /\ get_access_mode (demo_camera 2) = RO
  /\ exists specs st,
       build_feature_spec demo_camera [image_format] fresh_store = (Return specs, st)
       /\ read_specs st specs =
            [CategoryFeatureSpec "Image Format" (OfAccessMode RO)
               [IntegerFeatureSpec "Width" (OfVisibility Beginner) RW (PyInt 640)
                  (PyInt 8) (PyInt 1920) (PyInt 8) 10%N]
               11%N]
       /\ map spec_visibility (read_specs st specs)
          <> [OfVisibility (node_visibility (demo_camera 2))].
Proof.
  split; [reflexivity|]. split; [reflexivity|].
  eexists _, _. split; [vm_compute; reflexivity|].
  split; [vm_compute; reflexivity|].
  vm_compute. discriminate.
Qed.

(** ** C3 and C8: a Not-Available Integer after another node *)

(** C3 (evaluation at the failing input). With the command "Acquisition
    Start" followed by the Not-Available Integer "Timestamp", the call
    returns two specs, not one: the Command spec object a second time,
    its identifier regenerated from 10 to 11; and the mapping gets an
    entry for the Timestamp node, under 11, while 10 still leads to the
    command.  With the Timestamp node absent the call returns the one
    Command spec under 10 and a mapping with that single entry. *)
Theorem not_available_integer_is_not_skipped :
  (exists specs st,
     build_feature_spec demo_camera [acquisition_start; timestamp] fresh_store
     = (Return specs, st)
     /\ read_specs st specs =
          [CommandFeatureSpec "Acquisition Start" (OfVisibility Beginner) 11%N;
           CommandFeatureSpec "Acquisition Start" (OfVisibility Beginner) 11%N]
     /\ mapping st = <[11%N := timestamp]> (<[10%N := acquisition_start]> ∅))
  /\ (exists specs st,
        build_feature_spec demo_camera [acquisition_start] fresh_store = (Return specs, st)
        /\ read_specs st specs =
             [CommandFeatureSpec "Acquisition Start" (OfVisibility Beginner) 10%N]
        /\ mapping st = <[10%N := acquisition_start]> ∅).
Proof.
  split; eexists _, _; (split; [vm_compute; reflexivity|]);
    split; vm_compute; reflexivity.
Qed.

(** C8 (evaluation at the failing input). Two consecutive calls on the
    same camera state, with the features "Acquisition Start" and the
    Not-Available "Timestamp": each call returns a tree in which one
    identifier occurs twice (11 and 11, then 13 and 13). *)
Theorem consecutive_builds_repeat_an_identifier :
  exists specs1 st1 specs2 st2,
    build_feature_spec demo_camera [acquisition_start; timestamp] fresh_store
    = (Return specs1, st1)
    /\ build_feature_spec demo_camera [acquisition_start; timestamp] st1
       = (Return specs2, st2)
    /\ identifiers st1 specs1 = [11%N; 11%N]
    /\ identifiers st2 specs2 = [13%N; 13%N]
    /\ ~ NoDup (identifiers st1 specs1)
    /\ ~ NoDup (identifiers st2 specs2).
Proof.
  eexists _, _, _, _.
  split; [vm_compute; reflexivity|].
  split; [vm_compute; reflexivity|].
  split; [vm_compute; reflexivity|].
  split; [vm_compute; reflexivity|].
  split; vm_compute; intros H; apply NoDup_cons in H as [Hin _];
    apply Hin; left.
Qed.

(** ** C4: the mapping across rebuilds *)

(** C4 (evaluation at the failing input). [send_ctrl] builds the tree of
    a camera whose only feature is the command "Acquisition Start", and
    stores the mapping with the single identifier 10.  The controller
    then activates that command: [on_ctrl] starts acquisition and
    rebuilds with [build_feature_spec(features)], no mapping argument.
    The tree of this second build has the single identifier 11, but the
    mapping it returns, now the stored one, has two entries: 10, from
    the first build, is still in it. *)
Theorem rebuild_keeps_entries_of_earlier_build :
  exists w1 w2,
    send_ctrl (connected [acquisition_start])
    = (Return [FeatureSpecs
                 [CommandFeatureSpec "Acquisition Start" (OfVisibility Beginner) 10%N]], w1)
    /\ deref_mapping w1 = <[10%N := acquisition_start]> ∅
    /\ on_ctrl demo_sdk (mkFeatureValue CONTROLLER 10%N PyNone) w1
       = (Return [FeatureSpecs
                    [CommandFeatureSpec "Acquisition Start" (OfVisibility Beginner) 11%N]], w2)
    /\ mode w2 = STARTED
    /\ deref_mapping w2 = <[11%N := acquisition_start]> (<[10%N := acquisition_start]> ∅)
    /\ deref_mapping w2 !! 10%N = Some acquisition_start
    /\ dom (deref_mapping w2) <> ({[11%N]} : gset UUID).
Proof.
  eexists _, _.
  split; [vm_compute; reflexivity|].
  split; [vm_compute; reflexivity|].
  split; [vm_compute; reflexivity|].
  split; [vm_compute; reflexivity|].
  split; [vm_compute; reflexivity|].
  split; [vm_compute; reflexivity|].
  intros H.
  apply (f_equal (fun s : gset UUID => bool_decide (10%N ∈ s))) in H.
  vm_compute in H. discriminate.
Qed.

(** ** C2: a refused write is not always answered by a correction *)

(** C2 (evaluation at the failing input). The camera has the command
    "Acquisition Start" and the Not-Available Integer "Timestamp".
    [send_ctrl] publishes a tree whose two entries both carry the
    identifier 11, and in the stored mapping 11 leads to the Timestamp
    node (the [pass] branch of [build_feature_spec]).  The controller
    answers with a Controller-origin value for 11: the node is an
    Integer, the SDK refuses the assignment, and the handler of the
    exception reads [feature.value], which the SDK refuses as well.
    [on_ctrl] ends with that second exception and has yielded nothing:
    the value was not written and no correction was sent. *)
Theorem on_ctrl_unreadable_node_yields_nothing :
  exists w,
    send_ctrl (connected [acquisition_start; timestamp])
    = (Return [FeatureSpecs [start_button 11%N; start_button 11%N]], w)
    /\ deref_mapping w !! 11%N = Some timestamp
    /\ value_bearing (principal_interface_type (camera w (feature_node timestamp))) = true
    /\ sdk_set_value demo_sdk (feature_node timestamp) (PyBool true) (camera w)
       = (Some (AccessException "Node is not writable."), camera w)
    /\ on_ctrl demo_sdk (mkFeatureValue CONTROLLER 11%N (PyBool true)) w
       = (Raise (AccessException "Node is not readable."), w).
Proof.
  eexists.
  split; [vm_compute; reflexivity|].
  split; [vm_compute; reflexivity|].
  split; [reflexivity|].
  split; reflexivity.
Qed.

(** On a node that can be read the refused write is answered: the
    request for a width the camera does not take yields the width it
    has. *)
Example on_ctrl_correction :
  on_ctrl demo_sdk (mkFeatureValue CONTROLLER 10%N (PyInt 5000)) serving_width
  = (Return [Value (mkFeatureValue CAMERA 10%N (PyInt 640))], serving_width).
Proof. reflexivity. Qed.

(** The same request with a value the node takes: nothing is yielded
    and the node reports the new value. *)
Example on_ctrl_accepted_write :
  exists w,
    on_ctrl demo_sdk (mkFeatureValue CONTROLLER 10%N (PyInt 800)) serving_width
    = (Return [], w)
    /\ node_value (camera w 3) = PyInt 800.
Proof. eexists. split; reflexivity. Qed.

(** [send_ctrl] does lead to [serving_width]. *)
Example send_ctrl_reaches_serving_width :
  send_ctrl (connected [width_feature])
  = (Return [FeatureSpecs
               [IntegerFeatureSpec "Width" (OfVisibility Beginner) RW (PyInt 640)
                  (PyInt 8) (PyInt 1920) (PyInt 8) 10%N]],
     serving_width).
Proof. reflexivity. Qed.

(** ** C5 and C9: decoded frames *)

Section ReversePixels.
Variable c : nat.

Lemma reverse_pixels_length n (l : list Z) :
  length l = n * c -> length (reverse_pixels n c l) = n * c.
Proof.
  revert l. induction n as [|n IH]; intros l Hlen; [reflexivity|].
  cbn [reverse_pixels]. rewrite length_app, length_reverse, length_take.
  rewrite IH by (rewrite length_drop; lia). lia.
Qed.

Lemma reverse_pixels_lookup n (l : list Z) p k :
  length l = n * c -> p < n -> k < c ->
  reverse_pixels n c l !! (p * c + k) = l !! (p * c + (c - 1 - k)).
Proof.
  revert l p. induction n as [|n IH]; intros l p Hlen Hp Hk; [lia|].
  cbn [reverse_pixels].
  assert (Htake : length (take c l) = c) by (rewrite length_take; lia).
  destruct p as [|p].
  - rewrite lookup_app_l by (rewrite length_reverse; lia).
    rewrite reverse_lookup by lia. rewrite Htake.
    rewrite lookup_take_lt by lia. f_equal. lia.
  - rewrite lookup_app_r by (rewrite length_reverse; lia).
    rewrite length_reverse, Htake.
    replace (S p * c + k - c) with (p * c + k) by lia.
    rewrite IH by (try rewrite length_drop; lia).
    rewrite lookup_drop. f_equal. lia.
Qed.
End ReversePixels.

(** C9. For a component whose format is one of [bgr_formats] (and, the
    lists being disjoint, none of the monochrome or Bayer formats) and
    whose data has [height * width * channels] samples, decoding gives
    an array of shape [height; width; channels] whose sample at channel
    [k] of a pixel is the raw sample at channel [channels - 1 - k] of
    that pixel, brought to 8 bits when the format has more: with three
    channels the first and the third are exchanged and the second stays
    where it is. *)
Theorem decode_bgr_reverses_channels (pfnc : Pfnc) (component : Component) :
  let data_format := Some (data_format component) in
  let h := height component in
  let w := width component in
  let c := num_components_per_pixel component in
  is_custom pfnc (data_format_value component) = false ->
  format_in data_format (bgr_formats pfnc) = true ->
  format_in data_format (mono_location_formats pfnc) = false ->
  format_in data_format (bayer_location_formats pfnc) = false ->
  length (flat (data component)) = h * w * c ->
  exists content,
    decode pfnc component = Ok content
    /\ shape content = [h; w; c]
    /\ forall y x k, y < h -> x < w -> k < c ->
         pixel_sample content y x k
         = normalise pfnc data_format
             <$> flat (data component) !! ((y * w + x) * c + (c - 1 - k)).
Proof.
  intros data_format h w c Hcustom Hbgr Hmono Hbayer Hlen.
  subst data_format h w c. unfold decode, normalise.
  rewrite Hcustom, Hmono, Hbayer, Hbgr. cbn [orb].
  rewrite orb_true_r. cbn [orb]. unfold reshape. cbn [foldr flat].
  rewrite bool_decide_eq_true_2 by lia.
  unfold reverse_last_axis. cbn [shape dtype flat].
  set (h := height component) in *. set (w := width component) in *.
  set (c := num_components_per_pixel component) in *.
  assert (Hpix : forall y x k, y < h -> x < w -> k < c ->
            reverse_pixels (h * w) c (flat (data component)) !! ((y * w + x) * c + k)
            = flat (data component) !! ((y * w + x) * c + (c - 1 - k))).
  { intros y x k Hy Hx Hk. apply reverse_pixels_lookup; [lia| nia | lia]. }
  assert (Hin : forall y x k, y < h -> x < w -> k < c ->
            ((y <? h) && (x <? w) && (k <? c))%nat = true).
  { intros y x k Hy Hx Hk.
    rewrite !andb_true_iff, !Nat.ltb_lt. auto. }
  destruct (exponent_of pfnc (Some (data_format component)) >? 0)%Z.
  - eexists. split; [reflexivity|]. split; [reflexivity|].
    intros y x k Hy Hx Hk. unfold pixel_sample. cbn [shape to_8bit flat].
    rewrite Hin by assumption. rewrite list_lookup_fmap, Hpix by assumption.
    reflexivity.
  - eexists. split; [reflexivity|]. split; [reflexivity|].
    intros y x k Hy Hx Hk. unfold pixel_sample. cbn [shape flat].
    rewrite Hin by assumption. rewrite Hpix by assumption.
    destruct (flat (data component) !! _); reflexivity.
Qed.

Lemma decode_bgr_reverses_channels_witness :
  exists content,
    decode demo_pfnc bgr8_component = Ok content
    /\ shape content = [1; 2; 3]
    /\ forall y x k, y < 1 -> x < 2 -> k < 3 ->
         pixel_sample content y x k
         = normalise demo_pfnc (Some "BGR8")
             <$> [1; 2; 3; 4; 5; 6]%Z !! ((y * 2 + x) * 3 + (3 - 1 - k)).
Proof.
  apply (decode_bgr_reverses_channels demo_pfnc bgr8_component); reflexivity.
Defined.

Example decode_bgr8 :
  decode demo_pfnc bgr8_component = Ok (mkArray uint8 [1; 2; 3] [3; 2; 1; 6; 5; 4]%Z).
Proof. reflexivity. Qed.

(** Samples of more than 8 bits are reversed and then brought to 8. *)
Example decode_bgr16 :
  decode demo_pfnc
    (mkComponent 1 1 0x0230004B "BGR16" 3 (mkArray uint16 [3] [256; 512; 65535]%Z))
  = Ok (mkArray uint8 [1; 1; 3] [255; 2; 1]%Z).
Proof. reflexivity. Qed.

(** C5 (evaluation at the failing input). "Mono16" has 16 bits per
    sample, so the exponent is 8; the frame yielded for a buffer with
    the two pixels 256 and 65535 is the raw 16-bit array, reshaped:
    the pixels are still 256 and 65535, not 1 and 255, and the element
    type is still [uint16]. *)
Theorem mono16_frame_is_not_downscaled :
  exponent_of demo_pfnc (Some "Mono16") = 8%Z
  /\ on_image_started demo_pfnc (Buffer [mono16_component])
     = Ok [mkAxisArray (mkArray uint16 [1; 2] [256; 65535]%Z) ["rows"; "cols"]]
  /\ on_image_started demo_pfnc (Buffer [mono16_component])
     <> Ok [mkAxisArray (mkArray uint8 [1; 2] [256 / 256; 65535 / 256]%Z) ["rows"; "cols"]].
Proof.
  split; [reflexivity|]. split; [reflexivity|]. vm_compute. discriminate.
Qed.

(** In general a monochrome or Bayer component is reshaped and nothing
    else: the conversion to 8 bits is in the other branch. *)
Lemma decode_mono_is_reshape (pfnc : Pfnc) (component : Component) :
  is_custom pfnc (data_format_value component) = false ->
  format_in (Some (data_format component)) (mono_location_formats pfnc)
  || format_in (Some (data_format component)) (bayer_location_formats pfnc) = true ->
  decode pfnc component = reshape (data component) [height component; width component].
Proof.
  intros Hcustom Hmono. unfold decode. rewrite Hcustom, Hmono. reflexivity.
Qed.

(** ** C6 and C7: the controller *)

(** C6 (evaluation at the failing input). The controller is sent a tree
    whose only identifier is 10, and then, after a rebuild, a tree
    whose only identifier is 11.  [on_feature_specs] calls
    [build_widgets_from_spec(specs)], no mapping argument, and stores
    the returned dict: after the second tree it holds 10 as well as 11,
    and 10 still resolves to the button made for the first tree. *)
Theorem on_feature_specs_keeps_previous_generation
    (validate : Widget -> PyValue -> option Exception) (float_repr : Z -> Z -> string) :
  exists g1 g2,
    on_feature_specs validate float_repr [start_button 10%N] fresh_gui = (Return tt, g1)
    /\ on_feature_specs validate float_repr [start_button 11%N] g1 = (Return tt, g2)
    /\ deref_widget_mapping g1 = <[10%N := 4]> ∅
    /\ deref_widget_mapping g2 = <[11%N := 9]> (<[10%N := 4]> ∅)
    /\ deref_widget_mapping g2 !! 10%N = Some 4
    /\ dom (deref_widget_mapping g2) <> ({[11%N]} : gset UUID).
Proof.
  eexists _, _.
  split; [vm_compute; reflexivity|].
  split; [vm_compute; reflexivity|].
  split; [vm_compute; reflexivity|].
  split; [vm_compute; reflexivity|].
  split; [vm_compute; reflexivity|].
  intros H.
  apply (f_equal (fun s : gset UUID => bool_decide (10%N ∈ s))) in H.
  vm_compute in H. discriminate.
Qed.

(** While [changed] of a widget is blocked, assigning its value calls
    no slot: whatever the toolkit says about the value, nothing is
    given to [command_signal]. *)
Lemma blocked_assignment_emits_nothing
    (validate : Widget -> PyValue -> option Exception) (float_repr : Z -> Z -> string)
    (widget : WidgetId) (v : PyValue) (g : Gui) :
  command_signal
    (snd (with_changed_blocked widget (assign_value validate float_repr widget v) g))
  = command_signal g.
Proof.
  unfold with_changed_blocked, assign_value, emit_changed, set_blocked, modify,
    get_widget, bind, raise, ret.
  cbn [fst snd widget_objects command_signal].
  destruct (value_setter _ _ _ v) as [e|v']; [reflexivity|].
  case_bool_decide; [reflexivity|].
  cbn [fst snd widget_objects command_signal].
  rewrite !list_lookup_alter_eq.
  destruct (widget_objects g !! widget) as [w|]; reflexivity.
Qed.

(** C7. For every [FeatureValue] given to [on_feature_value]: when its
    origin is not [CAMERA] the handler returns without any change; when
    its identifier is not in the stored mapping the handler returns
    without any change; and in every case, so also when a Camera-origin
    value is applied to a known control, nothing is given to
    [command_signal]: no Controller-origin [FeatureValue] leaves the
    controller. *)
Theorem on_feature_value_no_echo
    (validate : Widget -> PyValue -> option Exception) (float_repr : Z -> Z -> string)
    (feature : FeatureValue) (g : Gui) :
  (source feature <> CAMERA ->
   on_feature_value validate float_repr feature g = (Return tt, g))
  /\ (deref_widget_mapping g !! uuid feature = None ->
      on_feature_value validate float_repr feature g = (Return tt, g))
  /\ command_signal (snd (on_feature_value validate float_repr feature g))
     = command_signal g.
Proof.
  unfold on_feature_value. repeat split.
  - intros Hsource. rewrite bool_decide_eq_true_2 by assumption. reflexivity.
  - intros Hunknown. case_bool_decide; [reflexivity|]. rewrite Hunknown. reflexivity.
  - case_bool_decide; [reflexivity|].
    destruct (deref_widget_mapping g !! uuid feature) as [widget|]; [|reflexivity].
    apply blocked_assignment_emits_nothing.
Qed.

Lemma on_feature_value_no_echo_witness :
  (CONTROLLER <> CAMERA ->
   on_feature_value demo_validate demo_float_repr
     (mkFeatureValue CONTROLLER 10%N (PyInt 800)) showing_width
   = (Return tt, showing_width))
  /\ (deref_widget_mapping showing_width !! 77%N = None ->
      on_feature_value demo_validate demo_float_repr
        (mkFeatureValue CAMERA 77%N (PyInt 800)) showing_width
      = (Return tt, showing_width))
  /\ command_signal
       (snd (on_feature_value demo_validate demo_float_repr
               (mkFeatureValue CAMERA 10%N (PyInt 800)) showing_width))
     = command_signal showing_width.
Proof.
  split; [|split].
  - apply (on_feature_value_no_echo demo_validate demo_float_repr
             (mkFeatureValue CONTROLLER 10%N (PyInt 800)) showing_width).
  - apply (on_feature_value_no_echo demo_validate demo_float_repr
             (mkFeatureValue CAMERA 77%N (PyInt 800)) showing_width).
  - apply (on_feature_value_no_echo demo_validate demo_float_repr
             (mkFeatureValue CAMERA 10%N (PyInt 800)) showing_width).
Defined.

(** The Camera-origin value reaches the spin box, whose signal is
    unblocked again afterwards. *)
Example on_feature_value_sets_the_control :
  let g := snd (on_feature_value demo_validate demo_float_repr
                  (mkFeatureValue CAMERA 10%N (PyInt 800)) showing_width) in
  widget_value <$> widget_objects g !! 4 = Some (PyInt 800)
  /\ (blocked ∘ changed) <$> widget_objects g !! 4 = Some false
  /\ command_signal g = [].
Proof. vm_compute. repeat split. Qed.

(** The same assignment without the block, as a user's edit does it,
    calls [on_value_changed]: a Controller-origin [FeatureValue] for
    identifier 10 is given to [command_signal]. *)
Example unblocked_assignment_emits :
  command_signal
    (snd (assign_value demo_validate demo_float_repr 4 (PyInt 800) showing_width))
  = [mkFeatureValue CONTROLLER 10%N (PyInt 800)].
Proof. vm_compute. reflexivity. Qed.

(** * Further properties of the code *)

(** ** [build_feature_spec]: entries of the mapping *)

(** The loop leaves the mapping alone, however it ends, and when it
    returns the identifier of the object is not a key. *)
Lemma regenerate_mapping a draws st :
  mapping (snd (regenerate a draws st)) = mapping st
  /\ (fst (regenerate a draws st) = Return tt ->
      mapping st !! read_uuid (snd (regenerate a draws st)) a = None).
Proof.
  revert st. induction draws as [|u draws IH]; intros st; cbn [regenerate];
    destruct (mapping st !! read_uuid st a) eqn:Hin; cbn [fst snd];
    try (split; [reflexivity|intros H; first [discriminate H|exact Hin]]).
  destruct (IH (mkStore draws (<[a:=u]> (spec_uuids st)) (mapping st))) as [Hmap Hfresh].
  cbn [mapping] in Hmap, Hfresh. split; assumption.
Qed.

Lemma keeps_entries_bind {A B} (m : M A) (k : A -> M B) :
  keeps_entries m -> (forall a, keeps_entries (k a)) -> keeps_entries (bind m k).
Proof.
  intros Hm Hk st. unfold bind. specialize (Hm st).
  destruct (m st) as [[a|e|] st1]; cbn [snd] in *; [|exact Hm|exact Hm].
  etransitivity; [exact Hm|apply Hk].
Qed.

Lemma keeps_entries_construct mk : keeps_entries (construct mk).
Proof.
  intros st. unfold construct, bind, uuid4.
  destruct (uuid4_draws st); reflexivity.
Qed.

Lemma keeps_entries_loop_tail feature spec feature_specs :
  keeps_entries (loop_tail feature spec feature_specs).
Proof.
  intros st. destruct spec as [s|]; [|reflexivity].
  cbn [loop_tail]. unfold bind, while_uuid_in_mapping.
  destruct (regenerate_mapping (spec_uuid s) (uuid4_draws st) st) as [Hmap Hfresh].
  destruct (regenerate (spec_uuid s) (uuid4_draws st) st) as [[[]|e|] st1];
    cbn [fst snd] in *; try (rewrite Hmap; reflexivity).
  unfold getattr_uuid, mapping_setitem, ret. cbn [snd mapping].
  rewrite Hmap. apply insert_subseteq, Hfresh. reflexivity.
Qed.

Lemma keeps_entries_for_loop cam features :
  Forall (fun feature => forall locals, keeps_entries (for_body cam feature locals)) features ->
  forall locals, keeps_entries (for_loop cam features locals).
Proof.
  induction 1 as [|feature rest Hfeature _ IH]; intros locals; cbn [for_loop].
  - intros st. reflexivity.
  - apply keeps_entries_bind; [apply Hfeature|apply IH].
Qed.

Lemma keeps_entries_get_value n : keeps_entries (get_value n).
Proof. intros st. unfold get_value. destruct (is_readable n); reflexivity. Qed.

(** A branch of the chain followed by the tail of the loop body. *)
Ltac keeps_entries_branch :=
  apply keeps_entries_bind; [|intros; apply keeps_entries_loop_tail];
  try (apply keeps_entries_bind; [apply keeps_entries_get_value|intros ?]);
  first [apply keeps_entries_bind; [apply keeps_entries_construct|intros ? ?; reflexivity]
        |intros ?; reflexivity].

Lemma keeps_entries_for_body cam feature locals : keeps_entries (for_body cam feature locals).
Proof.
  revert locals. induction feature as [n sub_features IH] using Feature_ind.
  intros [spec feature_specs].
  destruct (principal_interface_type (cam n)) eqn:Hkind;
    try (cbn [for_body]; rewrite Hkind; keeps_entries_branch).
  - (* Integer *)
    cbn [for_body]. rewrite Hkind.
    destruct (get_access_mode (cam n)); keeps_entries_branch.
  - (* Category *)
    rewrite for_body_category by exact Hkind.
    apply keeps_entries_bind; [|intros; apply keeps_entries_loop_tail].
    apply keeps_entries_bind; [apply keeps_entries_for_loop, IH|]. intros children.
    apply keeps_entries_bind; [apply keeps_entries_construct|intros s st; reflexivity].
Qed.

(** X1. Whatever the features and however the call ends (return,
    exception, or no draw left), [build_feature_spec] overwrites and
    removes nothing: every identifier the mapping resolved before the
    call resolves to the same feature afterwards. *)
Theorem build_feature_spec_keeps_entries cam features st :
  mapping st ⊆ mapping (snd (build_feature_spec cam features st)).
Proof.
  apply (keeps_entries_for_loop cam features).
  apply Forall_forall. intros feature _ locals. apply keeps_entries_for_body.
Qed.

(** ** [build_feature_spec]: the returned trees *)

Lemma represents_unfold cam st s f :
  represents cam st s f
  <-> carries cam st s f
      /\ match s with
         | CategoryFeatureSpec _ _ children _ =>
             Forall2 (represents cam st) children (feature_features f)
         | _ => True
         end.
Proof.
  destruct s; try reflexivity. cbn [represents].
  assert (Hall : forall cs fs,
            (fix all2 (cs : list (FeatureSpec Addr)) (fs : list Feature) : Prop :=
               match cs, fs with
               | [], [] => True
               | c :: cs', f' :: fs' => represents cam st c f' /\ all2 cs' fs'
               | _, _ => False
               end) cs fs <-> Forall2 (represents cam st) cs fs).
  { induction cs as [|c cs IH]; intros fs; destruct fs as [|f' fs].
    - split; constructor.
    - split; [contradiction|intros H; inversion H].
    - split; [contradiction|intros H; inversion H].
    - rewrite IH. split.
      + intros [Hc Hcs]. constructor; assumption.
      + intros H. inversion H; subst. split; assumption. }
  rewrite Hall. reflexivity.
Qed.

Lemma read_uuid_extended st st' us a :
  spec_uuids st' = spec_uuids st ++ us ->
  a < length (spec_uuids st) ->
  read_uuid st' a = read_uuid st a.
Proof.
  intros Hheap Ha. unfold read_uuid. rewrite Hheap, lookup_app_l by exact Ha. reflexivity.
Qed.

(** A tree that stands for a feature still does after more objects
    have been created and more entries made. *)
Lemma represents_extended cam st st' us s f :
  spec_uuids st' = spec_uuids st ++ us ->
  mapping st ⊆ mapping st' ->
  Forall (fun a => a < length (spec_uuids st)) (tree_uuids s) ->
  represents cam st s f -> represents cam st' s f.
Proof.
  intros Hheap Hmap. revert f.
  assert (Hcarries : forall s f, spec_uuid s < length (spec_uuids st) ->
            carries cam st s f -> carries cam st' s f).
  { intros s' f Ha (Hentry & Hrest). split; [|exact Hrest].
    rewrite (read_uuid_extended _ _ _ _ Hheap Ha).
    eapply lookup_weaken; eassumption. }
  induction s as [| | | | | |d v c u IH] using FeatureSpec_ind; intros f Haddrs;
    rewrite !represents_unfold; intros [Hc Hchildren];
    cbn [tree_uuids] in Haddrs; apply Forall_cons in Haddrs as [Ha Haddrs];
    (split; [exact (Hcarries _ _ Ha Hc)|]); try exact I.
  revert IH Haddrs. induction Hchildren as [|s f' cs fs Hs _ IHcs]; intros IH Haddrs;
    constructor; apply Forall_cons in IH as [IHs IH];
    cbn [flat_map] in Haddrs; apply Forall_app in Haddrs as [Hs_addrs Hcs_addrs].
  - apply IHs; assumption.
  - apply IHcs; assumption.
Qed.

Lemma represents_extended_list cam st st' us specs features :
  spec_uuids st' = spec_uuids st ++ us ->
  mapping st ⊆ mapping st' ->
  Forall (fun a => a < length (spec_uuids st)) (flat_map tree_uuids specs) ->
  Forall2 (represents cam st) specs features ->
  Forall2 (represents cam st') specs features.
Proof.
  intros Hheap Hmap Haddrs H. revert Haddrs.
  induction H as [|s f specs features Hs _ IH]; intros Haddrs; constructor;
    cbn [flat_map] in Haddrs; apply Forall_app in Haddrs as [Hs_addrs Hrest].
  - apply (represents_extended _ _ _ _ _ _ Hheap Hmap Hs_addrs Hs).
  - apply IH, Hrest.
Qed.

Lemma created_addresses st st' addrs us :
  created st st' addrs us -> Forall (fun a => a < length (spec_uuids st')) addrs.
Proof.
  intros (Hheap & Haddrs & _). rewrite Haddrs, Hheap, length_app.
  apply Forall_forall. intros a Ha. apply elem_of_seq in Ha. lia.
Qed.

Lemma for_loop_keeps_entries cam features locals st :
  mapping st ⊆ mapping (snd (for_loop cam features locals st)).
Proof.
  apply (keeps_entries_for_loop cam features).
  apply Forall_forall. intros feature _ l. apply keeps_entries_for_body.
Qed.

Lemma entry_of_new_object (st st' : Store) u f :
  spec_uuids st' = spec_uuids st ++ [u] ->
  mapping st' = <[u := f]> (mapping st) ->
  mapping st' !! read_uuid st' (length (spec_uuids st)) = Some f.
Proof.
  intros Hheap Hmap. unfold read_uuid.
  rewrite Hheap, lookup_app_r, Nat.sub_diag by lia. cbn.
  rewrite Hmap. apply lookup_insert_eq.
Qed.

Section Represents.
Variable cam : Camera.

Lemma for_loop_represents features :
  Forall (iteration_represents cam) features ->
  forallb (never_passes cam) features = true ->
  forall spec feature_specs st out st',
    for_loop cam features (spec, feature_specs) st = (Return out, st') ->
    exists new,
      out = feature_specs ++ new /\ Forall2 (represents cam st') new features.
Proof.
  induction 1 as [|feature rest Hfeature Hall IH]; intros Hclean spec feature_specs st out st' H.
  - cbn in H. injection H as <- <-. exists []. rewrite app_nil_r. split; constructor.
  - cbn [forallb] in Hclean. apply andb_true_iff in Hclean as [Hclean Hrest].
    cbn [for_loop] in H. apply bind_Return in H as ([spec1 specs1] & st1 & Hbody & H).
    destruct (for_body_creates cam feature Hclean _ _ _ _ _ Hbody)
      as (s' & us1 & Heq & Hcreated1).
    apply (Hfeature Hclean) in Hbody as (s & [= -> ->] & Hs).
    injection Heq as <-.
    pose proof (for_loop_keeps_entries cam rest (Some s, feature_specs ++ [s]) st1) as Hmap.
    rewrite H in Hmap. cbn [snd] in Hmap.
    destruct (for_loop_creates cam rest
                ltac:(apply Forall_forall; intros; apply for_body_creates) Hrest
                _ _ _ _ _ H) as (new' & us2 & _ & (Hheap2 & _)).
    apply (IH Hrest) in H as (new & -> & Hnew).
    exists (s :: new). split; [rewrite <- app_assoc; reflexivity|].
    constructor; [|exact Hnew].
    apply (represents_extended _ _ _ _ _ _ Hheap2 Hmap
             (created_addresses _ _ _ _ Hcreated1) Hs).
Qed.

(** A branch that constructs a spec without children. *)
Ltac leaf_represents H Hkind :=
  let spec1 := fresh "spec" in
  let s := fresh "s" in
  let st1 := fresh "st" in
  let st2 := fresh "st" in
  let Hspec := fresh "Hspec" in
  let Hnew := fresh "Hnew" in
  let u := fresh "u" in
  let Hheap := fresh "Hheap" in
  let Hfresh := fresh "Hfresh" in
  let Hmap := fresh "Hmap" in
  apply bind_Return in H as (spec1 & st2 & Hspec & H);
  strip_read Hspec;
  apply bind_Return in Hspec as (s & st1 & Hnew & [= <- <-]);
  destruct (construct_then_tail _ _ _ _ _ _ _ _ Hnew H (fun a => eq_refl))
    as (u & -> & -> & Hheap & Hfresh & Hmap);
  eexists; (split; [reflexivity|]);
  apply represents_unfold; (split; [|exact I]);
  unfold carries;
  cbn [feature_node spec_uuid interface_type spec_display_name spec_visibility
       spec_access_mode spec_value];
  rewrite Hkind; cbn [value_bearing];
  rewrite bool_decide_eq_false_2 by discriminate;
  (split; [exact (entry_of_new_object _ _ _ _ Hheap Hmap)|]);
  repeat split; congruence.

Lemma for_body_represents feature : iteration_represents cam feature.
Proof.
  induction feature as [n sub_features IH] using Feature_ind.
  intros Hclean spec feature_specs st o st' H.
  cbn [never_passes] in Hclean. apply andb_true_iff in Hclean as [Hpass Hsub].
  unfold takes_pass in Hpass.
  destruct (principal_interface_type (cam n)) eqn:Hkind;
    try (cbn [for_body] in H; rewrite Hkind in H; discriminate H).
  - (* Integer *)
    cbn [for_body] in H. rewrite Hkind in H.
    destruct (get_access_mode (cam n)) eqn:Hmode; try discriminate H;
      try (cbn in Hpass; discriminate Hpass); leaf_represents H Hkind.
  - (* Boolean *) cbn [for_body] in H. rewrite Hkind in H. leaf_represents H Hkind.
  - (* Command *) cbn [for_body] in H. rewrite Hkind in H. leaf_represents H Hkind.
  - (* Float *) cbn [for_body] in H. rewrite Hkind in H. leaf_represents H Hkind.
  - (* String *) cbn [for_body] in H. rewrite Hkind in H. leaf_represents H Hkind.
  - (* Category *)
    rewrite for_body_category in H by exact Hkind.
    rewrite bool_decide_eq_true_2 in Hsub by reflexivity.
    apply bind_Return in H as (spec1 & st3 & Hspec & H).
    apply bind_Return in Hspec as (children & st1 & Hchildren & Hspec).
    apply bind_Return in Hspec as (s & st2 & Hnew & [= <- <-]).
    destruct (for_loop_creates cam sub_features
                ltac:(apply Forall_forall; intros; apply for_body_creates) Hsub
                _ _ _ _ _ Hchildren) as (new' & us & Hnew' & Hcreated).
    apply (for_loop_represents _ IH Hsub) in Hchildren as (new & Heq & Hrep).
    cbn [app] in Hnew', Heq. subst children. subst new'.
    destruct (construct_then_tail _ _ _ _ _ _ _ _ Hnew H (fun a => eq_refl))
      as (u & -> & -> & Hheap & Hfresh & Hmap).
    eexists. split; [reflexivity|].
    apply represents_unfold. split.
    + unfold carries.
      cbn [feature_node spec_uuid interface_type spec_display_name spec_visibility
           spec_access_mode spec_value].
      rewrite Hkind. cbn [value_bearing].
      rewrite bool_decide_eq_true_2 by reflexivity.
      split; [exact (entry_of_new_object _ _ _ _ Hheap Hmap)|]. repeat split.
    + cbn [feature_features].
      apply (represents_extended_list _ _ _ [u] _ _ Hheap); [| |exact Hrep].
      * rewrite Hmap. apply insert_subseteq, Hfresh.
      * apply (created_addresses _ _ _ _ Hcreated).
  - (* Enumeration *) cbn [for_body] in H. rewrite Hkind in H. leaf_represents H Hkind.
Qed.
End Represents.

(** X2. When the traversal reaches no Not-Available Integer, the list
    a call of [build_feature_spec] returns mirrors the features it was
    given: one spec per feature, in order; each spec has the interface
    type and display name of its node and, for a kind with a value, its
    access mode and value; the children of a Category spec mirror the
    sub-features of the node in the same way; and the identifier of
    every spec of the tree leads, in the returned mapping, to the
    feature the spec was built from. *)
Theorem build_feature_spec_represents cam features st specs st' :
  forallb (never_passes cam) features = true ->
  build_feature_spec cam features st = (Return specs, st') ->
  Forall2 (represents cam st') specs features.
Proof.
  intros Hclean H. unfold build_feature_spec in H.
  apply for_loop_represents in H as (new & -> & Hrep);
    [exact Hrep|apply Forall_forall; intros; apply for_body_represents|exact Hclean].
Qed.

Lemma build_feature_spec_represents_witness :
  Forall2 (represents demo_camera
             (snd (build_feature_spec demo_camera [image_format; acquisition_start]
                     fresh_store)))
    [CategoryFeatureSpec "Image Format" (OfAccessMode RO)
       [IntegerFeatureSpec "Width" (OfVisibility Beginner) RW (PyInt 640)
          (PyInt 8) (PyInt 1920) (PyInt 8) 0] 1;
     CommandFeatureSpec "Acquisition Start" (OfVisibility Beginner) 2]
    [image_format; acquisition_start].
Proof.
  apply (build_feature_spec_represents demo_camera [image_format; acquisition_start]
           fresh_store); reflexivity.
Defined.

(** X3. When the traversal reaches no Not-Available Integer, a call of
    [build_feature_spec] that returns has produced trees in which no
    identifier occurs twice; none of these identifiers was a key of the
    mapping before the call, and the keys afterwards are the earlier
    keys and these identifiers. *)
Theorem build_feature_spec_fresh_identifiers cam features st specs st' :
  forallb (never_passes cam) features = true ->
  build_feature_spec cam features st = (Return specs, st') ->
  NoDup (identifiers st' specs)
  /\ (forall u, u ∈ identifiers st' specs -> mapping st !! u = None)
  /\ dom (mapping st') = dom (mapping st) ∪ list_to_set (identifiers st' specs).
Proof. apply build_feature_spec_identifiers. Qed.

Lemma build_feature_spec_fresh_identifiers_witness :
  let st := mkStore [12; 13; 14]%N [10; 11]%N
              (<[11%N := acquisition_start]> (<[10%N := width_feature]> ∅)) in
  let st' := snd (build_feature_spec demo_camera [image_format; acquisition_start] st) in
  let specs :=
    [CategoryFeatureSpec "Image Format" (OfAccessMode RO)
       [IntegerFeatureSpec "Width" (OfVisibility Beginner) RW (PyInt 640)
          (PyInt 8) (PyInt 1920) (PyInt 8) 2] 3;
     CommandFeatureSpec "Acquisition Start" (OfVisibility Beginner) 4] in
  NoDup (identifiers st' specs)
  /\ (forall u, u ∈ identifiers st' specs -> mapping st !! u = None)
  /\ dom (mapping st') = dom (mapping st) ∪ list_to_set (identifiers st' specs).
Proof.
  intros st st' specs.
  apply (build_feature_spec_fresh_identifiers demo_camera
           [image_format; acquisition_start] st specs st'); reflexivity.
Defined.

(** ** The precautionary loop *)

(** X4. When the loop [while spec.uuid in mapping: spec.uuid = uuid4()]
    ends, the identifier of the spec is not a key of the mapping, and
    the loop has not touched the mapping. *)
Theorem while_uuid_in_mapping_ends_fresh a st st' :
  while_uuid_in_mapping a st = (Return tt, st') ->
  mapping st' = mapping st /\ mapping st' !! read_uuid st' a = None.
Proof.
  intros H. unfold while_uuid_in_mapping in H.
  destruct (regenerate_mapping a (uuid4_draws st) st) as [Hmap Hfresh].
  rewrite H in Hmap, Hfresh. cbn [fst snd] in Hmap, Hfresh.
  split; [exact Hmap|]. rewrite Hmap. apply Hfresh. reflexivity.
Qed.

Lemma while_uuid_in_mapping_ends_fresh_witness :
  let st := mkStore [10; 11; 12]%N [10]%N (<[11%N := timestamp]> (<[10%N := width_feature]> ∅)) in
  let st' := mkStore [] [12]%N (<[11%N := timestamp]> (<[10%N := width_feature]> ∅)) in
  mapping st' = mapping st /\ mapping st' !! read_uuid st' 0 = None.
Proof.
  intros st st'. apply (while_uuid_in_mapping_ends_fresh 0 st st'). reflexivity.
Defined.

(** X5. The loop returns whenever the values [uuid4()] still has to
    give include one that is not a key of the mapping: it runs out of
    draws only if every remaining draw collides. *)
Theorem while_uuid_in_mapping_returns a st :
  a < length (spec_uuids st) ->
  (exists u, u ∈ uuid4_draws st /\ mapping st !! u = None) ->
  fst (while_uuid_in_mapping a st) = Return tt.
Proof.
  unfold while_uuid_in_mapping. generalize (uuid4_draws st) as draws.
  intros draws. revert st.
  induction draws as [|d draws IH]; intros st Ha (u & Hin & Hfresh).
  - inversion Hin.
  - cbn [regenerate]. destruct (mapping st !! read_uuid st a) eqn:Hkey; [|reflexivity].
    set (st1 := mkStore draws (<[a:=d]> (spec_uuids st)) (mapping st)).
    assert (Ha1 : a < length (spec_uuids st1)) by (cbn; rewrite length_insert; exact Ha).
    assert (Hread : read_uuid st1 a = d).
    { unfold read_uuid. cbn. rewrite list_lookup_insert_eq by exact Ha. reflexivity. }
    apply elem_of_cons in Hin as [->|Hin].
    + destruct draws as [|d' draws']; cbn [regenerate]; rewrite Hread; cbn [mapping st1];
        rewrite Hfresh; reflexivity.
    + apply (IH st1 Ha1). exists u. split; [exact Hin|exact Hfresh].
Qed.

Lemma while_uuid_in_mapping_returns_witness :
  fst (while_uuid_in_mapping 0
         (mkStore [10; 11; 12]%N [10]%N
            (<[11%N := timestamp]> (<[10%N := width_feature]> ∅))))
  = Return tt.
Proof.
  apply while_uuid_in_mapping_returns; [cbn; lia|].
  exists 12%N. split; [|reflexivity]. apply list_elem_of_In. cbn. auto.
Defined.

(** ** [build_feature_spec]: what it refuses *)

(** X6. An iteration on a feature whose interface type is none of the
    seven supported ones, or on an Integer whose access mode is none of
    Read-Write, Read-Only and Not-Available, raises [ValueError] before
    anything is drawn, constructed or entered in the mapping; as the
    first feature of a collection it makes the whole call end so. *)
Theorem build_feature_spec_refuses cam n sub_features rest locals st :
  supported (principal_interface_type (cam n)) = false
  \/ (principal_interface_type (cam n) = intfIInteger
      /\ get_access_mode (cam n) <> RW
      /\ get_access_mode (cam n) <> RO
      /\ get_access_mode (cam n) <> NA) ->
  exists msg,
    for_body cam (mkFeature n sub_features) locals st = (Raise (ValueError msg), st)
    /\ build_feature_spec cam (mkFeature n sub_features :: rest) st
       = (Raise (ValueError msg), st).
Proof.
  destruct locals as [spec feature_specs].
  intros [Hkind|(Hkind & Hrw & Hro & Hna)].
  - exists "Unexpected interface type".
    unfold build_feature_spec. cbn [for_loop for_body]. unfold bind at 1. cbn [for_body].
    destruct (principal_interface_type (cam n)); try discriminate Hkind; split; reflexivity.
  - exists "Unexpected EAccessMode(access_mode)".
    unfold build_feature_spec. cbn [for_loop for_body]. unfold bind at 1. cbn [for_body].
    rewrite Hkind.
    destruct (get_access_mode (cam n)); try contradiction; split; reflexivity.
Qed.

Lemma build_feature_spec_refuses_witness :
  exists msg,
    for_body (fun _ => mkNode "Port" Guru intfIPort RO PyNone PyNone PyNone PyNone [])
      (mkFeature 0 []) (None, []) fresh_store = (Raise (ValueError msg), fresh_store)
    /\ build_feature_spec
         (fun _ => mkNode "Port" Guru intfIPort RO PyNone PyNone PyNone PyNone [])
         [mkFeature 0 []; acquisition_start] fresh_store
       = (Raise (ValueError msg), fresh_store).
Proof.
  apply (build_feature_spec_refuses
           (fun _ => mkNode "Port" Guru intfIPort RO PyNone PyNone PyNone PyNone [])
           0 [] [acquisition_start] (None, []) fresh_store).
  left. reflexivity.
Defined.

(** X28. An iteration on a Boolean, Enumeration, String or Float node
    that is not readable ends with the [AccessException] of the read of
    [feature.value], before anything is drawn, constructed or entered
    in the mapping; as the first feature of a collection it makes the
    whole call end so. *)
Theorem build_feature_spec_unreadable cam n sub_features rest locals st :
  read_unguarded (principal_interface_type (cam n)) = true ->
  is_readable (cam n) = false ->
  for_body cam (mkFeature n sub_features) locals st
  = (Raise (AccessException "Node is not readable."), st)
  /\ build_feature_spec cam (mkFeature n sub_features :: rest) st
     = (Raise (AccessException "Node is not readable."), st).
Proof.
  destruct locals as [spec feature_specs]. intros Hkind Hread.
  unfold build_feature_spec. cbn [for_loop for_body]. unfold bind at 1. cbn [for_body].
  destruct (principal_interface_type (cam n)); try discriminate Hkind;
    unfold bind, get_value; rewrite Hread; split; reflexivity.
Qed.

Lemma build_feature_spec_unreadable_witness :
  for_body write_only_camera (mkFeature 0 []) (None, []) fresh_store
  = (Raise (AccessException "Node is not readable."), fresh_store)
  /\ build_feature_spec write_only_camera [mkFeature 0 []; acquisition_start] fresh_store
     = (Raise (AccessException "Node is not readable."), fresh_store).
Proof.
  apply (build_feature_spec_unreadable write_only_camera 0 [] [acquisition_start]
           (None, []) fresh_store); reflexivity.
Defined.

(** ** The camera unit: modes *)

Lemma rebuild_mode w : mode (snd (rebuild w)) = mode w.
Proof.
  unfold rebuild. destruct (ia w); [|reflexivity].
  destruct (build_feature_spec _ _ _) as [[specs|e|] st]; reflexivity.
Qed.

Lemma rebuild_and_publish_mode w : mode (snd (rebuild_and_publish w)) = mode w.
Proof.
  unfold rebuild_and_publish. pose proof (rebuild_mode w) as H.
  destruct (rebuild w) as [[specs|e|] w']; exact H.
Qed.

Lemma send_ctrl_mode w : mode (snd (send_ctrl w)) = mode w.
Proof.
  unfold send_ctrl. destruct (ia w); [|reflexivity].
  pose proof (rebuild_mode w) as H.
  destruct (rebuild w) as [[specs|e|] w']; exact H.
Qed.

(** The branch of [on_ctrl] that assigns [feature.value]: the
    assignment returns, or it raises and the read in the handler
    returns, or both raise. *)
Ltac assignment_branch sdk :=
  destruct (sdk_set_value sdk _ _ _) as [[?|] ?];
  [unfold bind, get_value, ret, raise; destruct (is_readable _)|].

(** The test of one of the two mode-changing branches of [on_ctrl]. *)
Ltac destruct_branch name :=
  match goal with
  | |- context [String.eqb ?a name && ?b] => destruct (String.eqb a name && b) eqn:?
  end.

Lemma on_ctrl_mode sdk message w :
  mode (snd (on_ctrl sdk message w)) = mode w
  \/ mode (snd (on_ctrl sdk message w)) = STARTED
  \/ mode (snd (on_ctrl sdk message w)) = STOPPED.
Proof.
  unfold on_ctrl. case_bool_decide; [left; reflexivity|].
  destruct (deref_mapping w !! uuid message) as [feature|]; [|left; reflexivity].
  destruct (principal_interface_type (camera w (feature_node feature)));
    try (left; reflexivity);
    try (assignment_branch sdk; left; reflexivity).
  cbn zeta.
  destruct_branch "AcquisitionStart".
  - right; left. rewrite rebuild_and_publish_mode.
    unfold ia_start. cbn. destruct (ia w); reflexivity.
  - destruct_branch "AcquisitionStop"; [|left; reflexivity].
    right; right. rewrite rebuild_and_publish_mode.
    unfold ia_stop. cbn. destruct (ia w); reflexivity.
Qed.

(** X7. [PAUSED] cannot be reached: after [initialize] and any sequence
    of calls of [send_ctrl] and [on_ctrl], with any messages and
    whatever the SDK does, the mode is [STOPPED] or [STARTED]. *)
Theorem paused_is_unreachable sdk settings devices interp cam calls :
  mode (run sdk calls (initialize sdk settings devices interp cam)) <> PAUSED.
Proof.
  assert (Hinit : mode (initialize sdk settings devices interp cam) <> PAUSED).
  { unfold initialize, ia_start. cbn zeta.
    destruct devices as [|d devices], (connect_first_available settings),
      (auto_start settings); cbn; discriminate. }
  revert Hinit. generalize (initialize sdk settings devices interp cam) as w.
  induction calls as [|c calls IH]; intros w Hw; [exact Hw|].
  cbn [run]. apply IH. destruct c as [|message]; cbn [call].
  - rewrite send_ctrl_mode. exact Hw.
  - destruct (on_ctrl_mode sdk message w) as [H|[H|H]]; rewrite H;
      [exact Hw|discriminate|discriminate].
Qed.

(** X8. After [initialize] the mode is [STARTED] exactly when the
    settings ask for the first available device and for an automatic
    start and the backend has found a device; otherwise it is
    [STOPPED].  A device is bound exactly when the settings ask for the
    first available one and there is one. *)
Theorem initialize_mode sdk settings devices interp cam :
  let w := initialize sdk settings devices interp cam in
  let bound := negb (Nat.eqb (length devices) 0) && connect_first_available settings in
  ia w = (if bound then head devices else None)
  /\ (ia w <> None <-> bound = true)
  /\ mode w = (if bound && auto_start settings then STARTED else STOPPED)
  /\ deref_mapping w = ∅.
Proof.
  unfold initialize. cbn zeta.
  destruct devices as [|d devices]; cbn [length Nat.eqb negb andb head].
  - rewrite bool_decide_eq_false_2 by (intros H; apply H; reflexivity).
    rewrite andb_false_r. cbn. repeat split; try discriminate; intros H; contradiction.
  - destruct (connect_first_available settings), (auto_start settings); cbn;
      repeat split; try discriminate; try reflexivity; intros H; try contradiction;
      try discriminate.
Qed.

(** ** The camera unit: [on_ctrl] *)

Lemma rebuild_and_publish_messages w :
  match fst (rebuild_and_publish w) with
  | Return msgs => exists specs, msgs = [FeatureSpecs specs]
  | _ => True
  end.
Proof.
  unfold rebuild_and_publish. destruct (rebuild w) as [[specs|e|] w']; cbn; eauto.
Qed.

(** X9. Whatever the message and the state, a call of [on_ctrl] that
    returns has yielded at most one message. *)
Theorem on_ctrl_yields_at_most_one sdk message w msgs w' :
  on_ctrl sdk message w = (Return msgs, w') -> length msgs <= 1.
Proof.
  unfold on_ctrl. case_bool_decide; [intros [= <- _]; cbn; lia|].
  destruct (deref_mapping w !! uuid message) as [feature|]; [|intros [= <- _]; cbn; lia].
  destruct (principal_interface_type (camera w (feature_node feature)));
    try discriminate; try (intros [= <- _]; cbn; lia);
    try (assignment_branch sdk; first [discriminate|intros [= <- _]; cbn; lia]).
  cbn zeta.
  assert (Hpub : forall w0, rebuild_and_publish w0 = (Return msgs, w') -> length msgs <= 1).
  { intros w0 Hr. pose proof (rebuild_and_publish_messages w0) as Hm. rewrite Hr in Hm.
    destruct Hm as [specs ->]. cbn. lia. }
  destruct_branch "AcquisitionStart"; [apply Hpub|].
  destruct_branch "AcquisitionStop"; [apply Hpub|].
  intros [= <- _]. cbn. lia.
Qed.

Lemma on_ctrl_yields_at_most_one_witness :
  length [Value (mkFeatureValue CAMERA 10%N (PyInt 640))] <= 1.
Proof.
  apply (on_ctrl_yields_at_most_one demo_sdk (mkFeatureValue CONTROLLER 10%N (PyInt 5000))
           serving_width _ serving_width).
  reflexivity.
Defined.

Lemma rebuild_and_publish_outcome w :
  match fst (rebuild_and_publish w) with
  | Return msgs =>
      (exists specs, msgs = [FeatureSpecs specs])
      /\ mode_change_ev (snd (rebuild_and_publish w)) = true
      /\ STATE_mapping (snd (rebuild_and_publish w)) = DefaultArgumentDict
  | _ =>
      mode_change_ev (snd (rebuild_and_publish w)) = mode_change_ev w
      /\ STATE_mapping (snd (rebuild_and_publish w)) = STATE_mapping w
  end.
Proof.
  unfold rebuild_and_publish, rebuild. destruct (ia w); [|cbn; auto].
  destruct (build_feature_spec _ _ _) as [[specs|e|] st]; cbn; eauto.
Qed.



(** X11. [on_ctrl] publishes a spec tree only when it changes the mode:
    if a call has yielded a [FeatureSpecs] message, the mode afterwards
    differs from the mode before, and the mode-change event is set. *)
Theorem on_ctrl_publishes_only_on_transition sdk message w msgs w' specs :
  on_ctrl sdk message w = (Return msgs, w') ->
  FeatureSpecs specs ∈ msgs ->
  mode w' <> mode w /\ mode_change_ev w' = true.
Proof.
  unfold on_ctrl. case_bool_decide; [intros [= <- _] Hin; inversion Hin|].
  destruct (deref_mapping w !! uuid message) as [feature|];
    [|intros [= <- _] Hin; inversion Hin].
  assert (Hnone : forall fv, FeatureSpecs specs ∈ [Value fv] -> False).
  { intros fv Hin. apply list_elem_of_singleton in Hin. discriminate Hin. }
  destruct (principal_interface_type (camera w (feature_node feature)));
    try discriminate; try (intros [= <- _] Hin; inversion Hin; fail);
    try (assignment_branch sdk;
         first [discriminate
               |intros [= <- _] Hin;
                first [exfalso; eapply Hnone; exact Hin|inversion Hin]]).
  cbn zeta.
  assert (Hpub : forall w0, mode w0 <> mode w ->
            rebuild_and_publish w0 = (Return msgs, w') ->
            mode w' <> mode w /\ mode_change_ev w' = true).
  { intros w0 Hw0 Hr. pose proof (rebuild_and_publish_outcome w0) as Hout.
    pose proof (rebuild_and_publish_mode w0) as Hmode.
    rewrite Hr in Hout, Hmode. cbn [fst snd] in Hout, Hmode.
    destruct Hout as (_ & Hev & _). rewrite Hmode. auto. }
  destruct_branch "AcquisitionStart".
  { intros Hr _. eapply Hpub; [|exact Hr].
    apply andb_true_iff in Heqb as [_ Hmode]. apply bool_decide_eq_true in Hmode.
    cbn in Hmode. unfold ia_start. cbn. destruct (ia w); cbn; congruence. }
  destruct_branch "AcquisitionStop".
  { intros Hr _. eapply Hpub; [|exact Hr].
    apply andb_true_iff in Heqb0 as [_ Hmode]. apply bool_decide_eq_true in Hmode.
    cbn in Hmode. unfold ia_stop. cbn. destruct (ia w); cbn; congruence. }
  intros [= <- _] Hin. inversion Hin.
Qed.

Lemma on_ctrl_publishes_only_on_transition_witness :
  let w := snd (send_ctrl (connected [acquisition_start])) in
  let r := on_ctrl demo_sdk (mkFeatureValue CONTROLLER 10%N PyNone) w in
  mode (snd r) <> mode w /\ mode_change_ev (snd r) = true.
Proof.
  intros w r.
  apply (on_ctrl_publishes_only_on_transition demo_sdk
           (mkFeatureValue CONTROLLER 10%N PyNone) w
           [FeatureSpecs [CommandFeatureSpec "Acquisition Start" (OfVisibility Beginner) 11%N]]
           (snd r)
           [CommandFeatureSpec "Acquisition Start" (OfVisibility Beginner) 11%N]).
  - reflexivity.
  - apply list_elem_of_singleton. reflexivity.
Defined.

(** X27. A Controller-origin [FeatureValue] whose identifier the stored
    mapping resolves to a value-bearing node (Integer, Float, Boolean,
    Enumeration or String) is assigned to the node, and the call ends
    in one of three ways.  When the assignment returns, nothing is
    yielded.  When it raises and the node can be read afterwards,
    exactly one message is yielded: a [FeatureValue] with origin
    [CAMERA], the same identifier and the value the node then reports.
    When it raises and the node cannot be read, the call raises the
    [AccessException] of the read and has yielded nothing.  In each case
    the camera is as the assignment left it, and the interpreter, the
    device, the mode, the event and the stored mapping are unchanged. *)
Theorem on_ctrl_assignment sdk message w feature :
  source message = CONTROLLER ->
  deref_mapping w !! uuid message = Some feature ->
  value_bearing (principal_interface_type (camera w (feature_node feature))) = true ->
  let n := feature_node feature in
  let attempt := sdk_set_value sdk n (value message) (camera w) in
  let r := on_ctrl sdk message w in
  fst r
  = match fst attempt with
    | None => Return []
    | Some _ =>
        if is_readable (snd attempt n)
        then Return [Value (mkFeatureValue CAMERA (uuid message)
                              (node_value (snd attempt n)))]
        else Raise (AccessException "Node is not readable.")
    end
  /\ camera (snd r) = snd attempt
  /\ interp (snd r) = interp w
  /\ ia (snd r) = ia w
  /\ mode (snd r) = mode w
  /\ mode_change_ev (snd r) = mode_change_ev w
  /\ STATE_mapping (snd r) = STATE_mapping w.
Proof.
  intros Hsource Hlookup Hkind n attempt r. subst n attempt r. unfold on_ctrl.
  rewrite Hsource. rewrite bool_decide_eq_false_2 by (intros H; apply H; reflexivity).
  rewrite Hlookup.
  destruct (principal_interface_type (camera w (feature_node feature)));
    try discriminate Hkind;
    assignment_branch sdk; cbn; repeat split; reflexivity.
Qed.

Lemma on_ctrl_assignment_witness :
  let r := on_ctrl demo_sdk (mkFeatureValue CONTROLLER 10%N (PyInt 5000)) serving_width in
  fst r = Return [Value (mkFeatureValue CAMERA 10%N (PyInt 640))]
  /\ camera (snd r) = demo_camera
  /\ interp (snd r) = interp serving_width
  /\ ia (snd r) = ia serving_width
  /\ mode (snd r) = mode serving_width
  /\ mode_change_ev (snd r) = mode_change_ev serving_width
  /\ STATE_mapping (snd r) = STATE_mapping serving_width.
Proof.
  apply (on_ctrl_assignment demo_sdk (mkFeatureValue CONTROLLER 10%N (PyInt 5000))
           serving_width width_feature); reflexivity.
Defined.

(** ** The camera unit: [send_ctrl] *)

(** X12. When a device is bound and the traversal of its root features
    reaches no Not-Available Integer, a call of [send_ctrl] that
    returns has yielded exactly one message, a spec tree without a
    repeated identifier, and the mapping it has stored resolves every
    identifier of that tree: none of them is unknown to a later
    [on_ctrl]. *)
Theorem send_ctrl_identifiers_resolve w acquirer msgs w' :
  ia w = Some acquirer ->
  forallb (never_passes (camera w)) (root_features acquirer) = true ->
  send_ctrl w = (Return msgs, w') ->
  exists specs,
    msgs = [FeatureSpecs specs]
    /\ NoDup (flat_map tree_uuids specs)
    /\ forall u, u ∈ flat_map tree_uuids specs -> is_Some (deref_mapping w' !! u).
Proof.
  intros Hia Hclean. unfold send_ctrl, rebuild. rewrite Hia.
  destruct (build_feature_spec (camera w) (root_features acquirer) (interp w))
    as [[specs|e|] st] eqn:Hbuild; try discriminate.
  intros [= <- <-]. exists (read_specs st specs). split; [reflexivity|].
  destruct (build_feature_spec_identifiers _ _ _ _ _ Hclean Hbuild) as (Hnodup & _ & Hdom).
  split; [exact Hnodup|].
  intros u Hu. unfold deref_mapping. cbn.
  apply elem_of_dom. rewrite Hdom. apply elem_of_union_r, elem_of_list_to_set. exact Hu.
Qed.

Lemma send_ctrl_identifiers_resolve_witness :
  exists specs,
    [FeatureSpecs
       [CategoryFeatureSpec "Image Format" (OfAccessMode RO)
          [IntegerFeatureSpec "Width" (OfVisibility Beginner) RW (PyInt 640)
             (PyInt 8) (PyInt 1920) (PyInt 8) 10%N] 11%N]]
    = [FeatureSpecs specs]
    /\ NoDup (flat_map tree_uuids specs)
    /\ forall u, u ∈ flat_map tree_uuids specs ->
         is_Some (deref_mapping (snd (send_ctrl (connected [image_format]))) !! u).
Proof.
  apply (send_ctrl_identifiers_resolve (connected [image_format]) (mkIA [image_format]));
    reflexivity.
Defined.

(** ** Frame decoding *)

(** X13. A component whose format value is a vendor's own
    ([is_custom]) is never decoded, whatever the format tables hold and
    whatever the component reports as its format: decoding raises the
    exception of the branch marked "Should not reach this.", and the
    pass of the acquisition loop ends with it, yielding no frame. *)
Theorem decode_custom_format pfnc component rest :
  is_custom pfnc (data_format_value component) = true ->
  decode pfnc component = Err (Error "Should not reach this.")
  /\ on_image_started pfnc (Buffer (component :: rest))
     = Err (Error "Should not reach this.").
Proof.
  intros Hcustom. unfold on_image_started, decode. rewrite Hcustom. cbn. auto.
Qed.

Lemma decode_custom_format_witness :
  decode demo_pfnc custom_component = Err (Error "Should not reach this.")
  /\ on_image_started demo_pfnc (Buffer [custom_component])
     = Err (Error "Should not reach this.").
Proof. apply (decode_custom_format demo_pfnc custom_component []). reflexivity. Defined.

(** X14. A component of an RGB, RGBA or BGRA format (one that is not in
    [bgr_formats] and not monochrome or Bayer) whose data has
    [height * width * channels] samples decodes to an array of shape
    [height; width; channels] with the samples in their raw order, each
    brought to 8 bits when the format has more: the channels of a BGRA
    component are not reordered. *)
Theorem decode_keeps_channel_order pfnc component :
  let x := Some (data_format component) in
  let h := height component in
  let w := width component in
  let c := num_components_per_pixel component in
  is_custom pfnc (data_format_value component) = false ->
  location_format pfnc x = false ->
  colour_format pfnc x = true ->
  format_in x (bgr_formats pfnc) = false ->
  length (flat (data component)) = h * w * c ->
  decode pfnc component
  = Ok (mkArray (if (exponent_of pfnc x >? 0)%Z then uint8 else dtype (data component))
          [h; w; c] (map (normalise pfnc x) (flat (data component)))).
Proof.
  intros x h w c Hcustom Hlocation Hcolour Hbgr Hlen. subst x h w c.
  unfold decode, normalise, location_format, colour_format in *.
  rewrite Hcustom, Hlocation, Hcolour, Hbgr. unfold reshape. cbn [foldr flat].
  rewrite bool_decide_eq_true_2 by lia.
  destruct (exponent_of pfnc (Some (data_format component)) >? 0)%Z.
  - reflexivity.
  - rewrite map_id. destruct (data component); reflexivity.
Qed.

Lemma decode_keeps_channel_order_witness :
  decode demo_pfnc bgra8_component
  = Ok (mkArray (if (exponent_of demo_pfnc (Some "BGRa8") >? 0)%Z then uint8 else uint8)
          [1; 2; 4] (map (normalise demo_pfnc (Some "BGRa8")) [1; 2; 3; 4; 5; 6; 7; 8]%Z)).
Proof.
  apply (decode_keeps_channel_order demo_pfnc bgra8_component); reflexivity.
Defined.

(** X15. A component of a recognised format whose data does not have
    as many samples as its height, width and, for the colour formats,
    channel count ask for is not decoded: the reshape raises
    [ValueError]. *)
Theorem decode_wrong_size pfnc component :
  let x := Some (data_format component) in
  is_custom pfnc (data_format_value component) = false ->
  (location_format pfnc x = true
   /\ length (flat (data component)) <> height component * width component)
  \/ (location_format pfnc x = false /\ colour_format pfnc x = true
      /\ length (flat (data component))
         <> height component * width component * num_components_per_pixel component) ->
  decode pfnc component = Err (ValueError "cannot reshape array").
Proof.
  intros x Hcustom H. subst x.
  unfold decode, location_format, colour_format in *. rewrite Hcustom.
  destruct H as [[Hlocation Hlen]|(Hlocation & Hcolour & Hlen)].
  - rewrite Hlocation. unfold reshape. cbn [foldr].
    rewrite bool_decide_eq_false_2 by lia. reflexivity.
  - rewrite Hlocation, Hcolour. unfold reshape. cbn [foldr].
    rewrite bool_decide_eq_false_2 by lia. reflexivity.
Qed.

Lemma decode_wrong_size_witness :
  decode demo_pfnc
    (mkComponent 2 2 0x01080001 "Mono8" 1 (mkArray uint8 [3] [1; 2; 3]%Z))
  = Err (ValueError "cannot reshape array").
Proof.
  apply (decode_wrong_size demo_pfnc
           (mkComponent 2 2 0x01080001 "Mono8" 1 (mkArray uint8 [3] [1; 2; 3]%Z)));
    [reflexivity|].
  left. split; [reflexivity|]. cbn. lia.
Defined.

(** X16. For a format of more than 8 bits per sample, the conversion of
    the colour branch takes a sample that fits the bit depth of the
    format to the integer part of its quotient by [2 ^ (bits - 8)],
    rounding down, and the result is below 256. *)
Theorem normalise_rounds_down pfnc x bits v :
  get_bits_per_pixel pfnc x = Some bits ->
  (8 < bits)%Z ->
  (0 <= v < 2 ^ bits)%Z ->
  normalise pfnc x v = (v / 2 ^ (bits - 8))%Z
  /\ (0 <= normalise pfnc x v < 256)%Z.
Proof.
  intros Hbits Hdeep Hv. unfold normalise, exponent_of. rewrite Hbits.
  destruct (Z.gtb_spec (bits - 8) 0) as [_|]; [|lia].
  unfold downscale.
  assert (Hpow : (2 ^ bits = 2 ^ (bits - 8) * 256)%Z).
  { replace bits with ((bits - 8) + 8)%Z at 1 by lia.
    rewrite Z.pow_add_r by lia. reflexivity. }
  assert (Hpos : (0 < 2 ^ (bits - 8))%Z) by (apply Z.pow_pos_nonneg; lia).
  assert (Hq : (0 <= v / 2 ^ (bits - 8) < 256)%Z).
  { split; [apply Z.div_pos; lia|].
    apply Z.div_lt_upper_bound; lia. }
  rewrite Z.mod_small by exact Hq. split; [reflexivity|exact Hq].
Qed.

Lemma normalise_rounds_down_witness :
  normalise demo_pfnc16 (Some "RGB16") 65535 = (65535 / 2 ^ (16 - 8))%Z
  /\ (0 <= normalise demo_pfnc16 (Some "RGB16") 65535 < 256)%Z.
Proof.
  apply (normalise_rounds_down demo_pfnc16 (Some "RGB16") 16 65535);
    [reflexivity|lia|lia].
Defined.

Example decode_rgb16 :
  decode demo_pfnc16 rgb16_component
  = Ok (mkArray uint8 [1; 2; 3] [0; 0; 1; 2; 255; 16]%Z).
Proof. reflexivity. Qed.

Lemma reverse_pixels_involutive n c (l : list Z) :
  length l = n * c -> reverse_pixels n c (reverse_pixels n c l) = l.
Proof.
  revert l. induction n as [|n IH]; intros l Hlen.
  - destruct l; [reflexivity|discriminate Hlen].
  - cbn [reverse_pixels].
    assert (Htake : c = length (reverse (take c l)))
      by (rewrite length_reverse, length_take; lia).
    rewrite take_app_length' by exact Htake.
    rewrite drop_app_length' by exact Htake.
    rewrite reverse_involutive, IH by (rewrite length_drop; lia).
    apply take_drop.
Qed.

(** X17. Reversing the channel axis twice gives the array back: for a
    three-dimensional array that has as many samples as its shape
    says, [content[:, :, ::-1][:, :, ::-1]] is [content]. *)
Theorem reverse_last_axis_involutive a h w c :
  shape a = [h; w; c] ->
  length (flat a) = h * w * c ->
  reverse_last_axis (reverse_last_axis a) = a.
Proof.
  intros Hshape Hlen. destruct a as [dt sh fl]. cbn [shape flat] in Hshape, Hlen.
  subst sh. unfold reverse_last_axis. cbn [shape flat dtype].
  rewrite reverse_pixels_involutive by lia. reflexivity.
Qed.

Lemma reverse_last_axis_involutive_witness :
  reverse_last_axis (reverse_last_axis (mkArray uint8 [1; 2; 3] [3; 2; 1; 6; 5; 4]%Z))
  = mkArray uint8 [1; 2; 3] [3; 2; 1; 6; 5; 4]%Z.
Proof.
  apply (reverse_last_axis_involutive _ 1 2 3); reflexivity.
Defined.

(** X18. A pass of the acquisition loop on a buffer whose first
    component is not of a monochrome or Bayer format yields no frame.
    When the component decodes, the content has the three dimensions
    height, width and channels, the [AxisArray] is given the two
    dimension names "rows" and "cols", and its constructor raises
    [ValueError]; when it does not decode, the pass ends with the
    exception of the decoding. *)
Theorem colour_pass_yields_no_frame pfnc component rest :
  let x := if is_custom pfnc (data_format_value component) then None
           else Some (data_format component) in
  location_format pfnc x = false ->
  on_image_started pfnc (Buffer (component :: rest))
  = Err (match decode pfnc component with
         | Ok _ => ValueError "dims must be same length as data.shape"
         | Err e => e
         end)
  /\ forall content,
       decode pfnc component = Ok content ->
       shape content
       = [height component; width component; num_components_per_pixel component].
Proof.
  intros x Hlocation. subst x.
  unfold on_image_started, decode, location_format in *.
  rewrite Hlocation.
  destruct (_ || _ || _ || _); [|split; [reflexivity|discriminate]].
  unfold reshape. case_bool_decide; [|split; [reflexivity|discriminate]].
  destruct (format_in _ (bgr_formats pfnc));
    destruct (exponent_of pfnc _ >? 0)%Z;
    (split; [reflexivity|intros content [= <-]; reflexivity]).
Qed.

Lemma colour_pass_yields_no_frame_witness :
  on_image_started demo_pfnc (Buffer [bgr8_component])
  = Err (match decode demo_pfnc bgr8_component with
         | Ok _ => ValueError "dims must be same length as data.shape"
         | Err e => e
         end)
  /\ forall content,
       decode demo_pfnc bgr8_component = Ok content -> shape content = [1; 2; 3].
Proof.
  apply (colour_pass_yields_no_frame demo_pfnc bgr8_component []). reflexivity.
Defined.

(** The BGR8 buffer of two pixels decodes, and the pass ends with the
    exception of the [AxisArray] constructor. *)
Example bgr8_pass_raises :
  decode demo_pfnc bgr8_component = Ok (mkArray uint8 [1; 2; 3] [3; 2; 1; 6; 5; 4]%Z)
  /\ on_image_started demo_pfnc (Buffer [bgr8_component])
     = Err (ValueError "dims must be same length as data.shape").
Proof. split; reflexivity. Qed.

(** ** The controller: applying a value from the camera *)

Lemma list_alter_id_at {A} (f : A -> A) (l : list A) i x :
  l !! i = Some x -> f x = x -> alter f i l = l.
Proof.
  intros Hx Hf. transitivity (alter id i l); [|apply list_alter_id; reflexivity].
  apply list_alter_ext; [|reflexivity]. intros y Hy.
  rewrite Hx in Hy. injection Hy as <-. exact Hf.
Qed.

Lemma list_alter_at {A} (f : A -> A) (l : list A) i x y :
  l !! i = Some x -> f x = y -> alter f i l = <[i := y]> l.
Proof.
  intros Hx Hf. rewrite list_insert_alter. apply list_alter_ext; [|reflexivity].
  intros z Hz. rewrite Hx in Hz. injection Hz as <-. exact Hf.
Qed.

(** X19. A Camera-origin [FeatureValue] whose identifier the stored
    mapping resolves to a widget whose setter takes the value is
    applied by giving that widget what the setter makes of the value
    (the text of the value for a [LineEdit], the value itself
    otherwise) and nothing else: the handler returns; the widget holds
    that value and is otherwise as before, its [changed] signal blocked
    or not as it was; no other widget and no other part of the
    controller has changed. *)
Theorem on_feature_value_assigns validate float_repr feature g i w v' :
  source feature = CAMERA ->
  deref_widget_mapping g !! uuid feature = Some i ->
  widget_objects g !! i = Some w ->
  value_setter validate float_repr (while_blocked w) (value feature) = inr v' ->
  on_feature_value validate float_repr feature g
  = (Return tt,
     mkGui (<[i := mkWidget (widget_class w) (name w) v' (choices w) (widget_min w)
                     (widget_max w) (step w) (enabled w) (visible w) (visible_override w)
                     (labels w) (layout w) (contents w) (changed w)
                     (native_parent_changed w)]> (widget_objects g))
       (widget_mapping g) (self_mapping g) (scroll_area g) (command_signal g)).
Proof.
  intros Hsource Hlookup Hw Hset. unfold on_feature_value.
  rewrite Hsource, bool_decide_eq_false_2 by (intros H; apply H; reflexivity).
  rewrite Hlookup. unfold while_blocked in Hset.
  unfold with_changed_blocked, assign_value, emit_changed, set_blocked, modify,
    get_widget, bind, ret.
  cbn [fst snd widget_objects]. rewrite list_lookup_alter_eq, Hw.
  cbn [fmap option_fmap option_map default from_option id]. rewrite Hset.
  case_bool_decide as Hsame;
    cbn [fst snd widget_objects widget_mapping self_mapping scroll_area command_signal];
    rewrite ?list_lookup_alter_eq, ?Hw;
    cbn [fmap option_fmap option_map default from_option id
         set_widget_value set_changed changed blocked];
    cbn [fst snd widget_objects widget_mapping self_mapping scroll_area command_signal];
    f_equal; f_equal; rewrite !list_alter_alter_eq;
    apply (list_alter_at _ _ _ w); [exact Hw| |exact Hw|];
    destruct w as [? ? ? ? ? ? ? ? ? ? ? ? ? [s b] ?]; cbn in *; subst; reflexivity.
Qed.

Lemma on_feature_value_assigns_witness :
  on_feature_value demo_validate demo_float_repr
    (mkFeatureValue CAMERA 10%N (PyInt 800)) showing_width
  = (Return tt,
     mkGui (<[4 := mkWidget SpinBox "Width" (PyInt 800) [] (PyInt 8) (PyInt 1920) (PyInt 8)
                     true true None true "vertical" []
                     (mkSignal [(on_value_changed 4 10%N, 0%Z)] false) []]>
              (widget_objects showing_width))
       (widget_mapping showing_width) (self_mapping showing_width)
       (scroll_area showing_width) (command_signal showing_width)).
Proof.
  apply (on_feature_value_assigns demo_validate demo_float_repr
           (mkFeatureValue CAMERA 10%N (PyInt 800)) showing_width 4
           (mkWidget SpinBox "Width" (PyInt 640) [] (PyInt 8) (PyInt 1920) (PyInt 8)
              true true None true "vertical" []
              (mkSignal [(on_value_changed 4 10%N, 0%Z)] false) [])
           (PyInt 800)); reflexivity.
Defined.

(** A Float control holds text: the value 2.0 from the camera reaches
    the line edit of "Gain" as "2.0". *)
Example line_edit_holds_text :
  let g := snd (on_feature_specs demo_validate demo_float_repr
                  [FloatFeatureSpec "Gain" (OfVisibility Beginner) RW (PyFloat 1 0) 10%N]
                  fresh_gui) in
  let g' := snd (on_feature_value demo_validate demo_float_repr
                   (mkFeatureValue CAMERA 10%N (PyFloat 1 1)) g) in
  widget_value <$> widget_objects g !! 4 = Some (PyStr "1.0")
  /\ widget_value <$> widget_objects g' !! 4 = Some (PyStr "2.0").
Proof. vm_compute. split; reflexivity. Qed.

(** X20. When the setter of the widget refuses the value, the handler
    ends with the setter's exception and the controller is exactly as
    it was: the widget keeps its value, and the block on its [changed]
    signal is undone. *)
Theorem on_feature_value_rejected validate float_repr feature g i w e :
  source feature = CAMERA ->
  deref_widget_mapping g !! uuid feature = Some i ->
  widget_objects g !! i = Some w ->
  value_setter validate float_repr (while_blocked w) (value feature) = inl e ->
  on_feature_value validate float_repr feature g = (Raise e, g).
Proof.
  intros Hsource Hlookup Hw Hset. unfold on_feature_value.
  rewrite Hsource, bool_decide_eq_false_2 by (intros H; apply H; reflexivity).
  rewrite Hlookup. unfold while_blocked in Hset.
  unfold with_changed_blocked, assign_value, emit_changed, set_blocked, modify,
    get_widget, bind, ret, raise.
  cbn [fst snd widget_objects]. rewrite list_lookup_alter_eq, Hw.
  cbn [fmap option_fmap option_map default from_option id]. rewrite Hset.
  cbn [fst snd widget_objects widget_mapping self_mapping scroll_area command_signal].
  f_equal. destruct g as [objs wm sm sa cs]. cbn in *. f_equal.
  rewrite list_alter_alter_eq. apply list_alter_id_at with (x := w); [exact Hw|].
  destruct w as [? ? ? ? ? ? ? ? ? ? ? ? ? [s b] ?]. reflexivity.
Qed.

Lemma on_feature_value_rejected_witness :
  on_feature_value demo_validate demo_float_repr
    (mkFeatureValue CAMERA 10%N (PyInt 5000)) showing_width
  = (Raise (ValueError "value is outside of the allowed range"), showing_width).
Proof.
  apply (on_feature_value_rejected demo_validate demo_float_repr
           (mkFeatureValue CAMERA 10%N (PyInt 5000)) showing_width 4
           (mkWidget SpinBox "Width" (PyInt 640) [] (PyInt 8) (PyInt 1920) (PyInt 8)
              true true None true "vertical" []
              (mkSignal [(on_value_changed 4 10%N, 0%Z)] false) []));
    reflexivity.
Defined.

(** ** The controller: building the controls *)

Lemma registers_bind {A B} ids1 ids2 (m : G A) (k : A -> G B) :
  registers ids1 m -> (forall a, registers ids2 (k a)) -> registers (ids1 ++ ids2) (bind m k).
Proof.
  intros Hm Hk g. destruct (Hm g) as ([a Ha] & Hkeys & Hids). unfold bind.
  destruct (m g) as [[a'|e|] g1]; try discriminate Ha. cbn [fst snd] in *.
  destruct (Hk a' g1) as (Hret & Hkeys' & Hids').
  split; [exact Hret|]. split; [etransitivity; eassumption|].
  intros u Hu. apply elem_of_app in Hu as [Hu|Hu]; [apply Hkeys', Hids, Hu|apply Hids', Hu].
Qed.

Lemma registers_nothing {A} (m : G A) :
  (forall g, exists a, m g = (Return a, mkGui (widget_objects (snd (m g)))
                                       (widget_mapping g) (self_mapping (snd (m g)))
                                       (scroll_area (snd (m g)))
                                       (command_signal (snd (m g))))) ->
  registers [] m.
Proof.
  intros H g. destruct (H g) as [a Ha]. split; [exists a; rewrite Ha; reflexivity|].
  split; [rewrite Ha; reflexivity|]. intros u Hu. inversion Hu.
Qed.

Lemma registers_ret {A} (a : A) : registers [] (@ret Gui A a).
Proof. apply registers_nothing. intros [? ? ? ? ?]. eexists. reflexivity. Qed.

Lemma registers_create w : registers [] (create w).
Proof. apply registers_nothing. intros [? ? ? ? ?]. eexists. reflexivity. Qed.

Lemma registers_get_widget i : registers [] (get_widget i).
Proof. apply registers_nothing. intros [? ? ? ? ?]. eexists. reflexivity. Qed.

Lemma registers_modify i f : registers [] (modify i f).
Proof. apply registers_nothing. intros [? ? ? ? ?]. eexists. reflexivity. Qed.

Lemma registers_connect i s p : registers [] (connect i s p).
Proof. apply registers_modify. Qed.

Lemma registers_setitem k i : registers [k] (widget_mapping_setitem k i).
Proof.
  intros g. split; [exists tt; reflexivity|]. unfold gui_keys. cbn.
  rewrite dom_insert_L. split; [set_solver|].
  intros u Hu. apply list_elem_of_singleton in Hu as ->. set_solver.
Qed.

Lemma registers_weaken {A} ids ids' (m : G A) :
  (forall u, u ∈ ids' -> u ∈ ids) -> registers ids m -> registers ids' m.
Proof.
  intros Hsub Hm g. destruct (Hm g) as (Hret & Hkeys & Hids).
  split; [exact Hret|]. split; [exact Hkeys|]. intros u Hu. apply Hids, Hsub, Hu.
Qed.

(** Steps that register nothing, in sequence. *)
Ltac registers_nothing_steps :=
  repeat first
    [ apply registers_ret | apply registers_create | apply registers_modify
    | apply registers_connect | apply registers_get_widget
    | match goal with |- registers _ (if ?b then _ else _) => destruct b end
    | apply (registers_bind [] []); [|intros ?] ].

Lemma registers_new_container cb_visibility : registers [] (new_container cb_visibility).
Proof.
  unfold new_container.
  apply (registers_bind [] []); [apply registers_create|]. intros widgets.
  destruct cb_visibility as [cb|]; registers_nothing_steps.
Qed.

(** After its widget has been made, an iteration registers the
    identifier of the spec. *)
Lemma registers_after_widget cb_visibility widgets (spec : FeatureSpec UUID) widget :
  registers [spec_uuid spec]
    (_ <- (if bool_decide (spec_access_mode spec = Some RO)
           then modify widget (set_enabled false) else ret tt) ;;
     w <- get_widget widget ;;
     _ <- (if bool_decide (widget_class w <> Container)
           then
             _ <- connect cb_visibility
                    (check_widget_visibility widget (spec_visibility spec)) 0 ;;
             connect widget (on_value_changed widget (spec_uuid spec)) 0
           else ret tt) ;;
     _ <- modify widgets (fun w => set_contents (contents w ++ [widget]) w) ;;
     widget_mapping_setitem (spec_uuid spec) widget).
Proof.
  apply (registers_bind [] [spec_uuid spec]); [registers_nothing_steps|]. intros _.
  apply (registers_bind [] [spec_uuid spec]); [registers_nothing_steps|]. intros w.
  apply (registers_bind [] [spec_uuid spec]); [registers_nothing_steps|]. intros _.
  apply (registers_bind [] [spec_uuid spec]); [registers_nothing_steps|]. intros _.
  apply registers_setitem.
Qed.

(** Lookups in the widget store after creations and updates. *)
Ltac widget_lookup :=
  repeat first
    [ rewrite list_lookup_alter_eq
    | rewrite list_lookup_alter_ne by lia
    | rewrite lookup_app_r by lia
    | rewrite Nat.sub_diag ];
  cbn [lookup list_lookup fmap option_fmap option_map default from_option id].

Lemma after_widget_effect cb widgets spec g w0 :
  widget_class w0 <> Container ->
  changed w0 = mkSignal [] false ->
  cb < length (widget_objects g) ->
  widgets < length (widget_objects g) ->
  let i := length (widget_objects g) in
  let r := after_widget cb widgets spec i (snd (create w0 g)) in
  fst r = Return tt
  /\ widget_mapping (snd r) !! spec_uuid spec = Some i
  /\ length (widget_objects (snd r)) = S i
  /\ widget_objects (snd r) !! i
     = Some (set_changed (mkSignal [(on_value_changed i (spec_uuid spec), 0%Z)] false)
               (if bool_decide (spec_access_mode spec = Some RO)
                then set_enabled false w0 else w0)).
Proof.
  intros Hclass Hchanged Hcb Hwidgets i r. subst i r.
  unfold after_widget, connect.
  unfold bind, create, modify, get_widget, widget_mapping_setitem, ret.
  cbn [fst snd widget_objects widget_mapping self_mapping scroll_area command_signal].
  destruct (bool_decide (spec_access_mode spec = Some RO));
    cbn [fst snd widget_objects widget_mapping self_mapping scroll_area command_signal];
    widget_lookup;
    rewrite bool_decide_eq_true_2 by exact Hclass;
    cbn [fst snd widget_objects widget_mapping self_mapping scroll_area command_signal];
    (split; [reflexivity|]);
    (split; [apply lookup_insert_eq|]);
    (split; [rewrite !length_alter, length_app; cbn; lia|]);
    widget_lookup; destruct w0; cbn in *; subst; reflexivity.
Qed.

Section ControllerBuild.
Variable validate : Widget -> PyValue -> option Exception.
Variable float_repr : Z -> Z -> string.

(** The chain of branches of an iteration on a spec that is not a
    Category: the setter refuses the value of the spec, or the control
    is made holding it. *)
Lemma for_spec_leaf cb_visibility widgets spec :
  interface_type spec <> intfICategory ->
  for_spec validate float_repr cb_visibility widgets spec
  = (widget <- match refusal validate spec with
               | Some e => raise e
               | None => create (set_widget_value (control_value float_repr spec)
                                   (widget_of spec))
               end ;;
     after_widget cb_visibility widgets spec widget).
Proof.
  destruct spec; intros Hleaf; try (contradiction Hleaf; reflexivity);
    cbn [for_spec refusal control_value widget_of];
    unfold new_value_widget, value_setter; cbn [widget_class new_widget];
    try reflexivity; destruct (validate _ _); reflexivity.
Qed.

Lemma registers_for_specs cb_visibility widgets specs :
  Forall (fun spec => accepted validate spec = true ->
                      forall cb w, registers (tree_uuids spec)
                                     (for_spec validate float_repr cb w spec)) specs ->
  forallb (accepted validate) specs = true ->
  registers (flat_map tree_uuids specs)
    (for_specs validate float_repr cb_visibility widgets specs).
Proof.
  induction 1 as [|spec rest Hspec _ IH]; intros Hacc; cbn [for_specs flat_map].
  - apply registers_ret.
  - cbn [forallb] in Hacc. apply andb_true_iff in Hacc as [Hacc Hrest].
    apply registers_bind; [apply Hspec, Hacc|intros _; apply IH, Hrest].
Qed.

Lemma registers_leaf cb_visibility widgets spec :
  interface_type spec <> intfICategory ->
  refusal validate spec = None ->
  registers (tree_uuids spec) (for_spec validate float_repr cb_visibility widgets spec).
Proof.
  intros Hleaf Hnone. rewrite (for_spec_leaf _ _ _ Hleaf), Hnone.
  replace (tree_uuids spec) with ([] ++ [spec_uuid spec])
    by (destruct spec; try reflexivity; contradiction Hleaf; reflexivity).
  apply registers_bind; [apply registers_create|].
  intros widget. apply (registers_after_widget cb_visibility widgets spec widget).
Qed.

Lemma registers_for_spec cb_visibility widgets spec :
  accepted validate spec = true ->
  registers (tree_uuids spec) (for_spec validate float_repr cb_visibility widgets spec).
Proof.
  revert cb_visibility widgets.
  induction spec as [| | | | | |d v c u IH] using FeatureSpec_ind; intros cb widgets Hacc;
    [apply registers_leaf; [discriminate|];
     cbn [accepted] in Hacc; destruct (refusal validate _); [discriminate Hacc|reflexivity]
     ..|].
  rewrite for_spec_category. cbn [tree_uuids spec_uuid]. cbn [accepted] in Hacc.
  apply (registers_weaken (flat_map tree_uuids c ++ [u])).
  { intros u' Hu'. apply elem_of_cons in Hu' as [->|Hu']; apply elem_of_app;
      [right; apply list_elem_of_singleton; reflexivity|left; exact Hu']. }
  apply registers_bind;
    [|intros widget;
      apply (registers_after_widget cb widgets (CategoryFeatureSpec d v c u))].
  apply (registers_bind [] (flat_map tree_uuids c)); [apply registers_new_container|].
  intros p.
  rewrite <- (app_nil_r (flat_map tree_uuids c)).
  apply registers_bind; [apply registers_for_specs; [|exact Hacc]|].
  { eapply Forall_impl; [exact IH|]. intros spec Hspec Hspec_acc cb' w'.
    apply Hspec, Hspec_acc. }
  intros _. registers_nothing_steps.
Qed.

Lemma widget_of_leaf spec :
  interface_type spec <> intfICategory ->
  widget_class (widget_of spec) <> Container
  /\ changed (widget_of spec) = mkSignal [] false
  /\ name (widget_of spec) = spec_display_name spec.
Proof.
  destruct spec; intros Hleaf; try (repeat split; discriminate).
  contradiction Hleaf. reflexivity.
Qed.

(** What an iteration on a spec that is not a Category and whose value
    the setter takes has done. *)
Lemma for_spec_made cb widgets spec g :
  interface_type spec <> intfICategory ->
  cb < length (widget_objects g) ->
  widgets < length (widget_objects g) ->
  refusal validate spec = None ->
  let i := length (widget_objects g) in
  let r := for_spec validate float_repr cb widgets spec g in
  fst r = Return tt
  /\ widget_mapping (snd r) !! spec_uuid spec = Some i
  /\ length (widget_objects (snd r)) = S i
  /\ widget_objects (snd r) !! i
     = Some (set_changed (mkSignal [(on_value_changed i (spec_uuid spec), 0%Z)] false)
               (if bool_decide (spec_access_mode spec = Some RO)
                then set_enabled false
                       (set_widget_value (control_value float_repr spec) (widget_of spec))
                else set_widget_value (control_value float_repr spec) (widget_of spec))).
Proof.
  intros Hleaf Hcb Hwidgets Hnone.
  destruct (widget_of_leaf spec Hleaf) as (Hclass & Hchanged & _).
  rewrite (for_spec_leaf cb widgets spec Hleaf), Hnone.
  apply (after_widget_effect cb widgets spec g
           (set_widget_value (control_value float_repr spec) (widget_of spec)));
    assumption.
Qed.

End ControllerBuild.

(** X21. For every spec tree all of whose values the setters of the
    new controls take, [on_feature_specs] returns, stores the dict of
    [build_widgets_from_spec] as the controller's mapping, and leaves
    every identifier of the tree resolvable in it: those of the
    controls, of the categories and of everything nested in them. *)
Theorem on_feature_specs_registers validate float_repr specs g :
  forallb (accepted validate) specs = true ->
  let r := on_feature_specs validate float_repr specs g in
  fst r = Return tt
  /\ self_mapping (snd r) = DefaultArgumentDict
  /\ forall u, u ∈ flat_map tree_uuids specs ->
       is_Some (deref_widget_mapping (snd r) !! u).
Proof.
  intros Hacc r. subst r.
  assert (Hbuild : registers (flat_map tree_uuids specs)
                     (build_widgets_from_spec validate float_repr specs None)).
  { unfold build_widgets_from_spec.
    apply (registers_bind [] (flat_map tree_uuids specs));
      [apply registers_new_container|]. intros p.
    rewrite <- (app_nil_r (flat_map tree_uuids specs)).
    apply registers_bind; [|intros _; apply registers_ret].
    apply registers_for_specs; [|exact Hacc]. apply Forall_forall.
    intros spec _ Hspec cb w. apply registers_for_spec, Hspec. }
  destruct (Hbuild g) as ([widgets Hret] & _ & Hids).
  unfold on_feature_specs, bind.
  destruct (build_widgets_from_spec validate float_repr specs None g) as [[a|e|] g1];
    try discriminate Hret.
  cbn [fst snd] in *. split; [reflexivity|]. split; [reflexivity|].
  intros u Hu. unfold deref_widget_mapping. cbn. apply elem_of_dom, Hids, Hu.
Qed.

Lemma on_feature_specs_registers_witness :
  let specs := [CategoryFeatureSpec "Image Format" (OfAccessMode RO)
                  [IntegerFeatureSpec "Width" (OfVisibility Beginner) RW (PyInt 640)
                     (PyInt 8) (PyInt 1920) (PyInt 8) 10%N;
                   EnumFeatureSpec "Pixel Format" (OfVisibility Beginner) RW (PyStr "Mono8")
                     ["Mono8"; "Mono16"] 11%N] 12%N;
                FloatFeatureSpec "Gain" (OfVisibility Expert) RW (PyFloat 1 0) 13%N] in
  let r := on_feature_specs demo_validate demo_float_repr specs fresh_gui in
  fst r = Return tt
  /\ self_mapping (snd r) = DefaultArgumentDict
  /\ forall u, u ∈ flat_map tree_uuids specs ->
       is_Some (deref_widget_mapping (snd r) !! u).
Proof.
  intros specs r.
  apply (on_feature_specs_registers demo_validate demo_float_repr specs fresh_gui).
  vm_compute. reflexivity.
Defined.

(** X22. For a spec that is not a Category and whose value the setter
    of the new control takes, an iteration of [build_widgets_from_spec]
    returns, having created one widget, at a new address, and mapped
    the identifier of the spec to it.  The widget has the display name
    of the spec and holds its value, as text in a [LineEdit]; it is
    disabled exactly when the access mode of the spec is Read-Only; and
    its [changed] signal is unblocked and connected to one slot,
    [on_value_changed] for this widget and this identifier. *)
Theorem for_spec_control validate float_repr cb widgets spec g :
  interface_type spec <> intfICategory ->
  cb < length (widget_objects g) ->
  widgets < length (widget_objects g) ->
  refusal validate spec = None ->
  let i := length (widget_objects g) in
  let r := for_spec validate float_repr cb widgets spec g in
  fst r = Return tt
  /\ widget_mapping (snd r) !! spec_uuid spec = Some i
  /\ length (widget_objects (snd r)) = S i
  /\ exists w,
       widget_objects (snd r) !! i = Some w
       /\ name w = spec_display_name spec
       /\ widget_value w = control_value float_repr spec
       /\ enabled w = negb (bool_decide (spec_access_mode spec = Some RO))
       /\ changed w = mkSignal [(on_value_changed i (spec_uuid spec), 0%Z)] false.
Proof.
  intros Hleaf Hcb Hwidgets Hnone i r. subst i r.
  destruct (widget_of_leaf spec Hleaf) as (_ & _ & Hname).
  destruct (for_spec_made validate float_repr cb widgets spec g Hleaf Hcb Hwidgets Hnone)
    as (Hret & Hmap & Hlen & Hw).
  split; [exact Hret|]. split; [exact Hmap|]. split; [exact Hlen|].
  eexists. split; [exact Hw|].
  destruct (bool_decide (spec_access_mode spec = Some RO)); cbn;
    rewrite <- Hname; destruct spec; repeat split.
Qed.

Lemma for_spec_control_witness :
  let spec := IntegerFeatureSpec "Width" (OfVisibility Beginner) RO (PyInt 640)
                PyNone PyNone PyNone 10%N in
  let g := snd (new_container None fresh_gui) in
  let r := for_spec demo_validate demo_float_repr 1 0 spec g in
  fst r = Return tt
  /\ widget_mapping (snd r) !! spec_uuid spec = Some 4
  /\ length (widget_objects (snd r)) = 5
  /\ exists w,
       widget_objects (snd r) !! 4 = Some w
       /\ name w = spec_display_name spec
       /\ widget_value w = control_value demo_float_repr spec
       /\ enabled w = negb (bool_decide (spec_access_mode spec = Some RO))
       /\ changed w = mkSignal [(on_value_changed 4 (spec_uuid spec), 0%Z)] false.
Proof.
  intros spec g r.
  apply (for_spec_control demo_validate demo_float_repr 1 0 spec g);
    [discriminate|cbn; lia|cbn; lia|reflexivity].
Defined.

(** X29. When the setter of the new control refuses the value of a
    spec (a [ComboBox] given a value that is not among its choices, a
    [SpinBox] one outside its range), the iteration raises the setter's
    exception and has made and mapped nothing.  With such a spec first
    in the tree, [on_feature_specs] ends with that exception: the dict
    has no new entry, and the controller's mapping and the scroll area
    are what they were. *)
Theorem on_feature_specs_refused validate float_repr cb widgets spec rest g e :
  refusal validate spec = Some e ->
  for_spec validate float_repr cb widgets spec g = (Raise e, g)
  /\ let r := on_feature_specs validate float_repr (spec :: rest) g in
     fst r = Raise e
     /\ widget_mapping (snd r) = widget_mapping g
     /\ self_mapping (snd r) = self_mapping g
     /\ scroll_area (snd r) = scroll_area g.
Proof.
  intros Hrefused.
  assert (Hleaf : interface_type spec <> intfICategory)
    by (destruct spec; try discriminate Hrefused; discriminate).
  assert (Hspec : forall cb' widgets' g',
            for_spec validate float_repr cb' widgets' spec g' = (Raise e, g')).
  { intros cb' widgets' g'. rewrite (for_spec_leaf _ _ _ _ _ Hleaf), Hrefused.
    reflexivity. }
  split; [apply Hspec|].
  assert (Hcontainer : exists p g1,
            new_container None g = (Return p, g1)
            /\ widget_mapping g1 = widget_mapping g
            /\ self_mapping g1 = self_mapping g
            /\ scroll_area g1 = scroll_area g).
  { eexists _, _. split; [reflexivity|]. repeat split. }
  destruct Hcontainer as (p & g1 & Hcontainer & Hmap & Hself & Harea).
  unfold on_feature_specs, build_widgets_from_spec. unfold bind.
  rewrite Hcontainer. cbn [for_specs]. unfold bind. rewrite Hspec.
  cbn [fst snd]. auto.
Qed.

Lemma on_feature_specs_refused_witness :
  for_spec demo_validate demo_float_repr 1 0 stray_enum (snd (new_container None fresh_gui))
  = (Raise (ValueError "not a valid choice"), snd (new_container None fresh_gui))
  /\ let r := on_feature_specs demo_validate demo_float_repr [stray_enum; start_button 11%N]
                fresh_gui in
     fst r = Raise (ValueError "not a valid choice")
     /\ widget_mapping (snd r) = widget_mapping fresh_gui
     /\ self_mapping (snd r) = self_mapping fresh_gui
     /\ scroll_area (snd r) = scroll_area fresh_gui.
Proof.
  apply (on_feature_specs_refused demo_validate demo_float_repr 1 0 stray_enum
           [start_button 11%N] (snd (new_container None fresh_gui))).
  reflexivity.
Defined.




(** The edit to 800 is announced; assigning 640, which the control
    holds, is not. *)
Example edit_to_the_held_value_is_silent :
  let g := showing_width in
  command_signal (snd (assign_value demo_validate demo_float_repr 4 (PyInt 800) g))
  = [mkFeatureValue CONTROLLER 10%N (PyInt 800)]
  /\ command_signal (snd (assign_value demo_validate demo_float_repr 4 (PyInt 640) g)) = [].
Proof. vm_compute. split; reflexivity. Qed.

(** ** The controller: visibility of a category label *)

Lemma visible_overrides_all label con g :
  Forall (fun each => each <> label -> override_of g each <> None) con ->
  exists bs,
    visible_overrides label con g = (Return bs, g)
    /\ existsb id bs = some_shown g label con.
Proof.
  induction 1 as [|each con Heach _ IH]; cbn [visible_overrides some_shown existsb].
  - exists []. split; reflexivity.
  - destruct IH as (bs & Hbs & Hany). case_bool_decide as Hne; cbn [andb].
    + unfold bind, get_widget. cbn [fst snd].
      specialize (Heach Hne). unfold override_of in Heach |- *.
      destruct (visible_override _) as [b|] eqn:Hb; [|contradiction].
      rewrite Hbs. cbn. exists (b :: bs). split; [reflexivity|].
      cbn [existsb id]. rewrite Hany. unfold some_shown.
      destruct b; cbn; [reflexivity|].
      rewrite bool_decide_eq_false_2 by discriminate. reflexivity.
    + exists bs. split; [exact Hbs|exact Hany].
Qed.

(** X24. When every widget of the container other than the label has
    the attribute [visible_override], the slot made by
    [check_container_visibility] returns and changes one thing: the
    label is made visible if one of those widgets has the attribute set
    to [True], and hidden otherwise. *)
Theorem check_container_visibility_sets_label con label arg g c :
  widget_objects g !! con = Some c ->
  Forall (fun each => each <> label -> override_of g each <> None) (contents c) ->
  call_slot (check_container_visibility con label) arg g
  = (Return tt,
     snd (modify label
            (fun w => set_visible (some_shown g label (contents c)) (visible_override w) w)
            g)).
Proof.
  intros Hc Hall. cbn [call_slot]. unfold bind at 1. unfold get_widget at 1.
  cbn [fst snd]. rewrite Hc. cbn [default from_option id].
  destruct (visible_overrides_all label (contents c) g Hall) as (bs & Hbs & Hany).
  unfold bind. rewrite Hbs, Hany. reflexivity.
Qed.

Lemma check_container_visibility_sets_label_witness :
  call_slot (check_container_visibility 5 7) (PyStr "Expert") showing_nested_expert
  = (Return tt,
     snd (modify 7
            (fun w => set_visible (some_shown showing_nested_expert 7 (contents inner_container))
                        (visible_override w) w)
            showing_nested_expert)).
Proof.
  apply (check_container_visibility_sets_label 5 7 (PyStr "Expert") showing_nested_expert
           inner_container); [vm_compute; reflexivity|].
  assert (Hcontents : contents inner_container = [7; 6]) by (vm_compute; reflexivity).
  rewrite Hcontents. repeat constructor.
  - intros H. contradiction H. reflexivity.
  - intros _. vm_compute. discriminate.
Defined.

Example inner_label_is_shown :
  contents inner_container = [7; 6]
  /\ some_shown showing_nested_expert 7 (contents inner_container) = true.
Proof. split; vm_compute; reflexivity. Qed.

Lemma visible_overrides_missing label con g :
  Exists (fun each => each <> label /\ override_of g each = None) con ->
  visible_overrides label con g = (Raise (AttributeError "visible_override"), g).
Proof.
  induction con as [|each con IH]; intros Hex; [inversion Hex|].
  cbn [visible_overrides]. case_bool_decide as Hne.
  - unfold bind, get_widget. cbn [fst snd].
    destruct (visible_override _) as [b|] eqn:Hb; [|reflexivity].
    apply Exists_cons in Hex as [[_ Hnone]|Hex].
    + unfold override_of in Hnone. congruence.
    + rewrite (IH Hex). reflexivity.
  - apply Exists_cons in Hex as [[Hne' _]|Hex]; [contradiction|]. apply IH, Hex.
Qed.

(** X25. When a widget of the container other than the label has no
    attribute [visible_override] -- a control before the first
    selection of a level, or the container of a sub-category, to which
    [check_widget_visibility] is never connected -- the slot raises
    [AttributeError] and changes nothing. *)
Theorem check_container_visibility_raises con label arg g c :
  widget_objects g !! con = Some c ->
  Exists (fun each => each <> label /\ override_of g each = None) (contents c) ->
  call_slot (check_container_visibility con label) arg g
  = (Raise (AttributeError "visible_override"), g).
Proof.
  intros Hc Hex. cbn [call_slot]. unfold bind at 1. unfold get_widget at 1.
  cbn [fst snd]. rewrite Hc. cbn [default from_option id].
  unfold bind. rewrite (visible_overrides_missing label (contents c) g Hex). reflexivity.
Qed.

Lemma check_container_visibility_raises_witness :
  call_slot (check_container_visibility 4 8) (PyStr "Expert") showing_nested_expert
  = (Raise (AttributeError "visible_override"), showing_nested_expert).
Proof.
  apply (check_container_visibility_raises 4 8 (PyStr "Expert") showing_nested_expert
           outer_container); [vm_compute; reflexivity|].
  assert (Hcontents : contents outer_container = [8; 5]) by (vm_compute; reflexivity).
  rewrite Hcontents. apply Exists_cons_tl, Exists_cons_hd.
  split; [discriminate|vm_compute; reflexivity].
Defined.

(** X26. Raising the selected level never hides a control: when the
    slot made by [check_widget_visibility] leaves the widget visible at
    one level, it leaves it visible at every level whose code is not
    smaller. *)
Theorem check_widget_visibility_monotone widget v a1 a2 l1 l2 g :
  EVisibility_getitem a1 = Some l1 ->
  EVisibility_getitem a2 = Some l2 ->
  (member_code (OfVisibility l1) <= member_code (OfVisibility l2))%Z ->
  shown (snd (call_slot (check_widget_visibility widget v) a1 g)) widget = Some true ->
  shown (snd (call_slot (check_widget_visibility widget v) a2 g)) widget = Some true.
Proof.
  intros H1 H2 Hle. unfold shown. cbn [call_slot]. rewrite H1, H2.
  destruct (Z.gtb_spec (member_code v) (member_code (OfVisibility l1))) as [Hgt1|Hle1];
    destruct (Z.gtb_spec (member_code v) (member_code (OfVisibility l2))) as [Hgt2|Hle2];
    unfold modify; cbn [snd widget_objects];
    destruct (widget_objects g !! widget) as [w|] eqn:Hw;
    rewrite ?list_lookup_alter_eq, ?Hw; cbn; try congruence; try lia.
Qed.

Lemma check_widget_visibility_monotone_witness :
  shown (width_at_level "Guru") 6 = Some true.
Proof.
  apply (check_widget_visibility_monotone 6 (OfVisibility Beginner)
           (PyStr "Beginner") (PyStr "Guru") Beginner Guru showing_nested);
    [reflexivity|reflexivity|vm_compute; discriminate|vm_compute; reflexivity].
Defined.
